(** * Service lifecycle orchestrator: shallow embedding and properties

    The development embeds the TypeScript sources

      - [lifecycle.ts]   ([defineLifecycle], [getHealthState],
                          [createHealthCheckCallback], [shutdown], [init]),
      - [shutdown.ts]    ([setupShutdownHandlers], [handleSignal]),
      - [healthcheck.ts] ([startHealthCheckServer])

    as executable Rocq definitions and states the behaviour of the
    orchestrator over them.

    Modelling conventions.

    - JavaScript values that flow through the orchestrator are the
      constructors of [JsValue]; objects used as maps are [gmap string _].
    - The closure variables of [defineLifecycle] ([emitter],
      [dependencyHealth], [healthCheckService]) are fields of [State],
      next to the state [W] of the embedding program and of the Node
      runtime, and to a [trace] of the observable effects in program
      order.
    - An [async] function is a [Task]: it runs synchronously up to its
      next [await], where it is [Pending] with the rest of its body; a
      scheduler decides when a pending task is resumed, so that two
      invocations can interleave at their [await]s.  [run] resumes a task
      immediately every time, which is what a caller that awaits the task
      with nothing else going on observes.
    - A user callback is a state transformer on [W] that returns how the
      promise it hands back settles ([Result]); its body runs when it is
      called.  Callbacks and listeners act on [W] only: they do not call
      back into the lifecycle instance, and promises that never settle
      are not modelled. *)

From stdpp Require Import gmap strings list fin_maps.

Set Warnings "-register-all".

Open Scope string_scope.
Open Scope list_scope.

(** ** JavaScript values *)

Inductive JsValue : Type :=
| JsUndefined
| JsBool (b : bool)
| JsNumber (n : Z)
| JsString (s : string)
| JsError (message : string)
| JsObject (props : gmap string JsValue).

(** Property read [o.k]: a key that is missing reads as [undefined]. *)
Definition get_prop (o : gmap string JsValue) (k : string) : JsValue :=
  default JsUndefined (o !! k).

(** JavaScript truthiness, as used by [state.healthy ? 200 : 503]. *)
Definition truthy (v : JsValue) : bool :=
  match v with
  | JsUndefined => false
  | JsBool b => b
  | JsNumber n => negb (n =? 0)%Z
  | JsString s => negb (String.eqb s "")
  | JsError _ => true
  | JsObject _ => true
  end.

(** How a synchronous call returns, or how a promise settles. *)
Inductive Result (A : Type) : Type :=
| Ok (a : A)
| Err (e : JsValue).
Arguments Ok {A} a.
Arguments Err {A} e.

(** How a piece of code completes: normally, by a [throw], or because
    [process.exit] ended the process (which no [catch] intercepts). *)
Inductive Completion (A : Type) : Type :=
| Normal (a : A)
| Thrown (e : JsValue)
| Exit (code : Z).
Arguments Normal {A} a.
Arguments Thrown {A} e.
Arguments Exit {A} code.

Definition of_result {A} (r : Result A) : Completion A :=
  match r with
  | Ok a => Normal a
  | Err e => Thrown e
  end.

(** ** Observable effects *)

Inductive CallbackName : Type :=
| OnInit | OnPing | IsHealthy | OnFailure | OnShutdown | ServerClose.

Inductive Effect : Type :=
| LogInfo (fields : list (string * JsValue)) (msg : string)
| LogError (fields : list (string * JsValue)) (msg : string)
| Emitted (event : string) (args : list JsValue)
| Invoked (cb : CallbackName) (args : list JsValue)
| Completed (cb : CallbackName) (rejected : option JsValue)
| ServerListen (port : Z)
| ProcessOn (nodeSignal : string)
| WriteHead (status : Z) (contentType : option string)
| End_ (body : option JsValue)
| ProcessExit (code : Z).

Definition is_invoked (cb : CallbackName) (e : Effect) : bool :=
  match e, cb with
  | Invoked OnInit _, OnInit
  | Invoked OnPing _, OnPing
  | Invoked IsHealthy _, IsHealthy
  | Invoked OnFailure _, OnFailure
  | Invoked OnShutdown _, OnShutdown
  | Invoked ServerClose _, ServerClose => true
  | _, _ => false
  end.

Definition is_exit (e : Effect) : bool :=
  match e with
  | ProcessExit _ => true
  | _ => false
  end.

(** Number of effects of a trace that satisfy [p]. *)
Definition count (p : Effect -> bool) (t : list Effect) : nat :=
  length (List.filter p t).

(** Arguments of the invocations of [cb] in a trace, in order. *)
Definition invocations (cb : CallbackName) (t : list Effect) : list (list JsValue) :=
  omap (fun e => match e with
                 | Invoked cb' args => if is_invoked cb e then Some args else None
                 | _ => None
                 end) t.

(** Payloads of the emissions of [event] in a trace, in order. *)
Definition emissions (event : string) (t : list Effect) : list (list JsValue) :=
  omap (fun e => match e with
                 | Emitted ev args => if String.eqb ev event then Some args else None
                 | _ => None
                 end) t.

(** The promise returned by a callback: where it comes from and how it
    settles. *)
Record Promise (A : Type) : Type := mkPromise {
  source : CallbackName;
  settles : Result A
}.
Arguments mkPromise {A} source settles.
Arguments source {A} p.
Arguments settles {A} p.

Definition rejection {A} (r : Result A) : option JsValue :=
  match r with
  | Ok _ => None
  | Err e => Some e
  end.

Definition is_listen (e : Effect) : bool :=
  match e with
  | ServerListen _ => true
  | _ => false
  end.

Definition is_processOn (e : Effect) : bool :=
  match e with
  | ProcessOn _ => true
  | _ => false
  end.

Definition is_writeHead (e : Effect) : bool :=
  match e with
  | WriteHead _ _ => true
  | _ => false
  end.

Definition is_end (e : Effect) : bool :=
  match e with
  | End_ _ => true
  | _ => false
  end.

(** ** HTTP requests seen by the health endpoint *)

Record Request : Type := mkRequest {
  url : string;
  method : string
}.

Section Model.

(** State of the embedding program and of the Node runtime. *)
Context {W : Type}.

(** [Date.now()]. *)
Variable now : W -> Z.

(** Node's [server.close], promisified. *)
Variable server_close : W -> W * Result unit.

(** An [async] user callback. *)
Definition Callback (A : Type) : Type := W -> W * Result A.

(** An event listener: [(...args) => void]. *)
Definition Listener : Type := list JsValue -> W -> W * Result unit.

(** [lifecycle.ts], [LifecycleConfig]. *)
Record LifecycleConfig : Type := mkConfig {
  onInit : option (Callback unit);
  onPing : option (Callback (gmap string JsValue));
  isHealthy : option (Callback bool);
  onFailure : option (JsValue -> Callback unit);
  onShutdown : option (Callback unit);
  dependencies : option (list string)
}.

(** [healthcheck.ts], [HealthCheckService]. *)
Record HealthCheckService : Type := mkService {
  close : W -> W * Result unit;
  port : Z
}.

Record State : Type := mkState {
  world : W;
  emitter : list (string * Listener);
  dependencyHealth : gmap string bool;
  healthCheckService : option HealthCheckService;
  trace : list Effect
}.

Definition set_world (w : W) (s : State) : State :=
  mkState w (emitter s) (dependencyHealth s) (healthCheckService s) (trace s).
Definition set_emitter (l : list (string * Listener)) (s : State) : State :=
  mkState (world s) l (dependencyHealth s) (healthCheckService s) (trace s).
Definition set_dependencyHealth (m : gmap string bool) (s : State) : State :=
  mkState (world s) (emitter s) m (healthCheckService s) (trace s).
Definition set_healthCheckService (h : option HealthCheckService) (s : State) : State :=
  mkState (world s) (emitter s) (dependencyHealth s) h (trace s).
Definition record (e : Effect) (s : State) : State :=
  mkState (world s) (emitter s) (dependencyHealth s) (healthCheckService s)
          (trace s ++ [e]).

(** ** Tasks: synchronous segments separated by [await] *)

Inductive Async (A : Type) : Type :=
| Settled (c : Completion A)
| Pending (resume : State -> State * Async A).
Arguments Settled {A} c.
Arguments Pending {A} resume.

Definition Task (A : Type) : Type := State -> State * Async A.

Definition ret {A} (a : A) : Task A := fun s => (s, Settled (Normal a)).
Definition throw {A} (e : JsValue) : Task A := fun s => (s, Settled (Thrown e)).

Fixpoint bind_async {A B} (a : Async A) (f : A -> Task B) (s : State)
  : State * Async B :=
  match a with
  | Settled (Normal x) => f x s
  | Settled (Thrown e) => (s, Settled (Thrown e))
  | Settled (Exit c) => (s, Settled (Exit c))
  | Pending r =>
      (s, Pending (fun s1 => let (s2, a') := r s1 in bind_async a' f s2))
  end.

Definition bind {A B} (m : Task A) (f : A -> Task B) : Task B :=
  fun s => let (s1, a) := m s in bind_async a f s1.

(** [try { m } catch (e) { h e }]. *)
Fixpoint catch_async {A} (a : Async A) (h : JsValue -> Task A) (s : State)
  : State * Async A :=
  match a with
  | Settled (Thrown e) => h e s
  | Settled c => (s, Settled c)
  | Pending r =>
      (s, Pending (fun s1 => let (s2, a') := r s1 in catch_async a' h s2))
  end.

Definition try_catch {A} (m : Task A) (h : JsValue -> Task A) : Task A :=
  fun s => let (s1, a) := m s in catch_async a h s1.

(** [await p]: the task is suspended; when it is resumed the promise has
    settled, which the trace records, and the task continues with the
    value or throws the rejection. *)
Definition await {A} (p : Promise A) : Task A :=
  fun s => (s, Pending (fun s1 =>
     (record (Completed (source p) (rejection (settles p))) s1,
      Settled (of_result (settles p))))).

(** [await m] for the promise of a started [async] function [m]: the
    caller continues one suspension after [m] has settled. *)
Fixpoint settle_later {A} (a : Async A) : Async A :=
  match a with
  | Settled (Exit c) => Settled (Exit c)
  | Settled c => Pending (fun s => (s, Settled c))
  | Pending r => Pending (fun s => let (s1, a') := r s in (s1, settle_later a'))
  end.

Definition await_task {A} (m : Task A) : Task A :=
  fun s => let (s1, a) := m s in (s1, settle_later a).

Definition gets {A} (f : State -> A) : Task A :=
  fun s => (s, Settled (Normal (f s))).
Definition modify (f : State -> State) : Task unit :=
  fun s => (f s, Settled (Normal tt)).
Definition effect (e : Effect) : Task unit := modify (record e).

(** Resume a task until it settles. *)
Fixpoint run_async {A} (a : Async A) (s : State) : State * Completion A :=
  match a with
  | Settled c => (s, c)
  | Pending r => let (s1, a1) := r s in run_async a1 s1
  end.

Definition run {A} (m : Task A) (s : State) : State * Completion A :=
  let (s1, a) := m s in run_async a s1.

(** Sequencing of completed runs: [run (bind m f)] is [run m] and then
    [run (f x)]. *)
Definition and_then {A B} (r : State * Completion A)
    (k : A -> State -> State * Completion B) : State * Completion B :=
  match r with
  | (s1, Normal x) => k x s1
  | (s1, Thrown e) => (s1, Thrown e)
  | (s1, Exit c) => (s1, Exit c)
  end.

(** Induction on the suspensions of a task. *)
Fixpoint Async_induction {A} (P : Async A -> Prop)
    (HS : forall c, P (Settled c))
    (HP : forall r, (forall s, P (snd (r s))) -> P (Pending r))
    (a : Async A) : P a :=
  match a with
  | Settled c => HS c
  | Pending r => HP r (fun s => Async_induction P HS HP (snd (r s)))
  end.

(** The completed run of [await cb(...args)]. *)
Definition called {A} (name : CallbackName) (args : list JsValue)
    (cb : Callback A) (s : State) : State * Completion A :=
  let (w, r) := cb (world s) in
  (record (Completed name (rejection r))
          (set_world w (record (Invoked name args) s)),
   of_result r).

Notation "'let*' x ':=' m 'in' k" := (bind m (fun x => k))
  (at level 10, x name, m at level 100, k at level 200, only parsing).
Notation "m >> k" := (bind m (fun _ => k))
  (at level 90, right associativity, only parsing).

(** A synchronous call into the embedding program. *)
Definition call_sync {A} (f : W -> W * Result A) : Task A :=
  fun s => let (w, r) := f (world s) in (set_world w s, Settled (of_result r)).

(** Calling an [async] callback: its body runs and it returns a promise. *)
Definition invoke {A} (name : CallbackName) (args : list JsValue)
    (cb : Callback A) : Task (Promise A) :=
  effect (Invoked name args) >>
  fun s => let (w, r) := cb (world s) in
           (set_world w s, Settled (Normal (mkPromise name r))).

(** [process.exit(code)]. *)
Definition process_exit {A} (code : Z) : Task A :=
  fun s => (record (ProcessExit code) s, Settled (Exit code)).

(** ** [EventEmitter] *)

Definition listeners (event : string) (em : list (string * Listener))
  : list Listener :=
  snd <$> List.filter (fun p => String.eqb (fst p) event) em.

(** Listeners run synchronously in registration order; the first one that
    throws ends the emission with its exception. *)
Fixpoint call_listeners (ls : list Listener) (args : list JsValue) : Task unit :=
  match ls with
  | [] => ret tt
  | l :: rest => call_sync (l args) >> call_listeners rest args
  end.

(** [emitter.emit(event, ...args)] for the lifecycle's events.  (Node's
    special treatment of an ["error"] event without listener is left out:
    the orchestrator emits ["init"], ["ready"], ["failure"] and ["done"].) *)
Definition emit (event : string) (args : list JsValue) : Task bool :=
  effect (Emitted event args) >>
  let* ls := gets (fun s => listeners event (emitter s)) in
  call_listeners ls args >>
  ret (match ls with [] => false | _ :: _ => true end).

(** [instance.on(event, listener)].  (Node first emits ["newListener"] to
    the listeners already registered for it; this is left out, so the
    definition stands for emitters without such listeners.) *)
Definition on (event : string) (listener : Listener) (s : State) : State :=
  set_emitter (emitter s ++ [(event, listener)]) s.

(** What the listeners [ls] do to the world when they are called with
    [args], and whether one of them throws. *)
Fixpoint fire (ls : list Listener) (args : list JsValue) (w : W)
  : W * Result unit :=
  match ls with
  | [] => (w, Ok tt)
  | l :: rest =>
      match l args w with
      | (w1, Ok _) => fire rest args w1
      | (w1, Err e) => (w1, Err e)
      end
  end.

(** No listener of [event] throws. *)
Definition quiet (event : string) (s : State) : Prop :=
  forall l, l ∈ listeners event (emitter s) ->
  forall args w, snd (l args w) = Ok tt.

(** An emission of [event] ends with a listener that throws [e]. *)
Definition throwing (event : string) (s : State) (e : JsValue) : Prop :=
  forall args w, snd (fire (listeners event (emitter s)) args w) = Err e.

(** The promise of a callback is fulfilled, or is rejected with [e],
    whenever the callback is called. *)
Definition fulfils {A} (cb : Callback A) : Prop :=
  forall w, exists a, snd (cb w) = Ok a.
Definition rejects {A} (cb : Callback A) (e : JsValue) : Prop :=
  forall w, snd (cb w) = Err e.

(** The completed run of [emitter.emit(event, ...args)]. *)
Definition emitted (event : string) (args : list JsValue) (s : State)
  : State * Completion bool :=
  let ls := listeners event (emitter s) in
  let (w, r) := fire ls args (world s) in
  (set_world w (record (Emitted event args) s),
   match r with
   | Ok _ => Normal (match ls with [] => false | _ :: _ => true end)
   | Err e => Thrown e
   end).

(** ** [healthcheck.ts] *)

Definition DEFAULT_PORT : Z := 3000%Z.

Definition OnPingCallback : Type := Request -> Task unit.

(** [res.writeHead(404); res.end()]. *)
Definition notFound : Task unit :=
  effect (WriteHead 404%Z None) >> effect (End_ None).

(** The handler that [startHealthCheckServer] gives to [http.createServer].
    [End_ (Some v)] stands for [res.end(JSON.stringify(v))]. *)
Definition requestHandler (onPing : option (OnPingCallback + Z))
    (req : Request) : Task unit :=
  let onPing : option OnPingCallback :=
    match onPing with
    | Some (inl f) => Some f
    | Some (inr _) => None
    | None => None
    end in
  let onPing : OnPingCallback :=
    match onPing with
    | Some f => f
    | None => fun _ =>
        effect (WriteHead 200%Z (Some "application/json")) >>
        effect (End_ (Some (JsObject {[ "status" := JsString "Ok" ]})))
    end in
  if String.eqb (url req) "/health" && String.eqb (method req) "GET"
  then onPing req
  else notFound.

(** [startHealthCheckServer(onPing, port)]: the server, whose requests go
    to [requestHandler onPing], listens on [port] and the service handle
    is returned.  (The log line that Node issues once the server is
    listening is not recorded; [status()] is reduced to its [port]; a
    port outside 0..65535, for which [listen] throws, is not modelled.) *)
Definition startHealthCheckServer (onPing : option (OnPingCallback + Z))
    (port : option Z) : Task HealthCheckService :=
  let port : Z :=
    match onPing with
    | Some (inr n) => n
    | _ => default DEFAULT_PORT port
    end in
  effect (ServerListen port) >>
  ret {| close := server_close; port := port |}.

(** ** [shutdown.ts] *)

Inductive ShutdownSignal : Type := SIGTERM | SIGINT.

Definition OnShutdownCallback : Type := ShutdownSignal -> Task unit.

Definition handleSignal (onShutdown : option OnShutdownCallback)
    (nodeSignal : string) (shutdownSignal : ShutdownSignal) : Task unit :=
  effect (LogInfo [("signal", JsString nodeSignal)]
                  "Signal received, initiating graceful shutdown") >>
  try_catch
    (match onShutdown with
     | Some f => await_task (f shutdownSignal)
     | None => ret tt
     end)
    (fun error =>
       effect (LogError [("error", error); ("signal", JsString nodeSignal)]
                        "Error during shutdown")) >>
  process_exit 0%Z.

(** [setupShutdownHandlers(onShutdown)]: [process.on] for both signals;
    the handler of [nodeSignal] is [handleSignal onShutdown nodeSignal _]. *)
Definition setupShutdownHandlers (onShutdown : option OnShutdownCallback)
  : Task unit :=
  effect (ProcessOn "SIGTERM") >> effect (ProcessOn "SIGINT").

(** ** [lifecycle.ts] *)

(** The loop of [defineLifecycle] over [config.dependencies]. *)
Definition declare (names : list string) : gmap string bool :=
  foldl (fun m dep => <[dep := false]> m) ∅ names.

(** The loop of [init] over [dependencyHealth.keys()]. *)
Definition markAllReady (m : gmap string bool) : gmap string bool :=
  foldl (fun m' dep => <[dep := true]> m') m (fst <$> map_to_list m).

(** [Array.from(dependencyHealth.values()).every(v => v)]. *)
Definition allReady (m : gmap string bool) : bool :=
  forallb (fun v => v) (snd <$> map_to_list m).

(** [Object.keys(deps).length > 0 ? deps : undefined]. *)
Definition dependenciesField (deps : gmap string bool) : JsValue :=
  if (0 <? size deps)%nat then JsObject (JsBool <$> deps) else JsUndefined.

(** The object literal of [getHealthState] before the spread. *)
Definition computedState (healthy : bool) (timestamp : Z)
    (deps : gmap string bool) : gmap string JsValue :=
  <["healthy" := JsBool healthy]>
    (<["timestamp" := JsNumber timestamp]>
       (<["dependencies" := dependenciesField deps]> ∅)).

(** [{ ...computed, ...customState }]: a key of [customState] replaces the
    key of the same name written before it. *)
Definition spread (computed customState : gmap string JsValue)
  : gmap string JsValue :=
  customState ∪ computed.

Variable config : LifecycleConfig.

(** What [defineLifecycle(config)] sets up before it returns the
    instance; the call itself always returns normally. *)
Definition defineLifecycle (w : W) : Completion State :=
  let dependencyHealth :=
    match dependencies config with
    | Some names => declare names
    | None => ∅
    end in
  Normal (mkState w [] dependencyHealth None []).

Definition getHealthState : Task (gmap string JsValue) :=
  let* customState :=
    match onPing config with
    | Some cb => let* p := invoke OnPing [] cb in await p
    | None => ret ∅
    end in
  let* deps := gets dependencyHealth in
  let* healthy :=
    match isHealthy config with
    | Some cb => let* p := invoke IsHealthy [] cb in await p
    | None => gets (fun s => allReady (dependencyHealth s))
    end in
  let* timestamp := gets (fun s => now (world s)) in
  ret (spread (computedState healthy timestamp deps) customState).

(** The world in which [getHealthState] calls [isHealthy]: [onPing], when
    configured, has run. *)
Definition world_after_onPing (s : State) : W :=
  match onPing config with
  | Some ping => fst (ping (world s))
  | None => world s
  end.

(** The callback of [createHealthCheckCallback], together with the
    promise chain [getHealthState().then(..).catch(..)] that it starts. *)
Definition createHealthCheckCallback : OnPingCallback :=
  fun req =>
    if String.eqb (url req) "/health" then
      try_catch
        (let* state := await_task getHealthState in
         let statusCode := if truthy (get_prop state "healthy") then 200%Z else 503%Z in
         effect (WriteHead statusCode (Some "application/json")) >>
         effect (End_ (Some (JsObject state))))
        (fun err =>
           effect (LogError [("err", err)] "Error getting health state") >>
           effect (WriteHead 503%Z (Some "application/json")) >>
           effect (End_ (Some (JsObject
             (<["healthy" := JsBool false]>
                (<["error" := JsString "Failed to get health state"]> ∅))))))
    else notFound.

Definition shutdown : Task unit :=
  effect (LogInfo [] "Initiating graceful shutdown...") >>
  let* service := gets healthCheckService in
  match service with
  | Some svc => let* p := invoke ServerClose [] (close svc) in await p
  | None => ret tt
  end >>
  match onShutdown config with
  | Some cb => let* p := invoke OnShutdown [] cb in await p
  | None => ret tt
  end >>
  emit "done" [] >>
  process_exit 0%Z.

(** The state in which [init] emits ["ready"]: the flags are set, the
    health server is started and the signal handlers are registered. *)
Definition set_up (s : State) : State :=
  record (ProcessOn "SIGINT")
    (record (ProcessOn "SIGTERM")
       (set_healthCheckService
          (Some {| close := server_close; port := DEFAULT_PORT |})
          (record (ServerListen DEFAULT_PORT)
             (set_dependencyHealth (markAllReady (dependencyHealth s)) s)))).

Definition init : Task unit :=
  try_catch
    (emit "init" [] >>
     match onInit config with
     | Some cb => let* p := invoke OnInit [] cb in await p
     | None => ret tt
     end >>
     modify (fun s => set_dependencyHealth (markAllReady (dependencyHealth s)) s) >>
     let* service :=
       startHealthCheckServer (Some (inl createHealthCheckCallback)) None in
     modify (set_healthCheckService (Some service)) >>
     setupShutdownHandlers (Some (fun _ => shutdown)) >>
     emit "ready" [] >>
     ret tt)
    (fun error =>
       emit "failure" [error] >>
       match onFailure config with
       | Some cb => let* p := invoke OnFailure [error] (cb error) in await p
       | None => ret tt
       end >>
       throw error).

(** The completed run of the [try] block of [init]. *)
Definition init_try (s : State) : State * Completion unit :=
  and_then (emitted "init" [] s) (fun _ s1 =>
  and_then
    match onInit config with
    | Some cb => called OnInit [] cb s1
    | None => (s1, Normal tt)
    end (fun _ s2 =>
  and_then (emitted "ready" [] (set_up s2)) (fun _ s3 =>
  (s3, Normal tt)))).

(** The completed run of the [catch] block of [init]. *)
Definition init_catch (error : JsValue) (s : State) : State * Completion unit :=
  and_then (emitted "failure" [error] s) (fun _ s1 =>
  and_then
    match onFailure config with
    | Some cb => called OnFailure [error] (cb error) s1
    | None => (s1, Normal tt)
    end (fun _ s2 =>
  (s2, Thrown error))).

(** The completed run of [shutdown]. *)
Definition shutdown_run (s : State) : State * Completion unit :=
  let s0 := record (LogInfo [] "Initiating graceful shutdown...") s in
  and_then
    match healthCheckService s0 with
    | Some svc => called ServerClose [] (close svc) s0
    | None => (s0, Normal tt)
    end (fun _ s1 =>
  and_then
    match onShutdown config with
    | Some cb => called OnShutdown [] cb s1
    | None => (s1, Normal tt)
    end (fun _ s2 =>
  and_then (emitted "done" [] s2) (fun _ s3 =>
  (record (ProcessExit 0) s3, Exit 0)))).

(** In [shutdown], close raises [e], or close completes and [onShutdown]
    raises [e]. *)
Definition shutdown_step_rejects (s : State) (e : JsValue) : Prop :=
  (exists svc, healthCheckService s = Some svc /\ rejects (close svc) e) \/
  ((forall svc, healthCheckService s = Some svc -> fulfils (close svc)) /\
   exists cb, onShutdown config = Some cb /\ rejects cb e).

(** In the part [t] of a trace, every effect that satisfies [later] comes
    after an occurrence of [earlier]. *)
Definition preceded_by (earlier : Effect) (later : Effect -> bool)
    (t : list Effect) : Prop :=
  forall i e, t !! i = Some e -> later e = true ->
  exists j, (j < i)%nat /\ t !! j = Some earlier.

(** The names given in [config.dependencies]. *)
Definition declared : list string := default [] (dependencies config).

(** The states a lifecycle instance goes through: it is defined,
    listeners are registered, the embedding program runs, and the
    operations of the instance, the health endpoint and the signal handler
    run to completion. *)
Inductive reachable : State -> Prop :=
| reach_defined w s :
    defineLifecycle w = Normal s -> reachable s
| reach_on event listener s :
    reachable s -> reachable (on event listener s)
| reach_world w s :
    reachable s -> reachable (set_world w s)
| reach_init s :
    reachable s -> reachable (fst (run init s))
| reach_getHealthState s :
    reachable s -> reachable (fst (run getHealthState s))
| reach_request req s :
    reachable s ->
    reachable (fst (run (requestHandler (Some (inl createHealthCheckCallback)) req) s))
| reach_shutdown s :
    reachable s -> reachable (fst (run shutdown s))
| reach_signal nodeSignal shutdownSignal s :
    reachable s ->
    reachable (fst (run (handleSignal (Some (fun _ => shutdown))
                                      nodeSignal shutdownSignal) s)).

(** What an operation may do to the registry and to the server handle:
    nothing, or what the setup of [init] does. *)
Definition kept_or_set_up (s s' : State) : Prop :=
  (dependencyHealth s' = dependencyHealth s /\
   healthCheckService s' = healthCheckService s) \/
  (dependencyHealth s' = markAllReady (dependencyHealth s) /\
   healthCheckService s' = Some {| close := server_close; port := DEFAULT_PORT |}).

Definition kept (s s' : State) : Prop :=
  dependencyHealth s' = dependencyHealth s /\
  healthCheckService s' = healthCheckService s.

End Model.

Arguments Settled {W A} c.
Arguments Pending {W A} resume.

(** * Scenarios

    Concrete configurations on a world without state of its own, used to
    run the definitions above. *)

Definition clock (w : unit) : Z := 1708515000000%Z.

Definition close_ok (w : unit) : unit * Result unit := (w, Ok tt).

Definition resolve {A} (a : A) : @Callback unit A := fun w => (w, Ok a).
Definition reject {A} (e : JsValue) : @Callback unit A := fun w => (w, Err e).

(** The instance that [defineLifecycle(config)] returns. *)
Definition defined (config : @LifecycleConfig unit) : @State unit :=
  match defineLifecycle config tt with
  | Normal s => s
  | _ => mkState tt [] ∅ None []
  end.

(** The instance after [await lifecycle.init()], whether it succeeded or
    threw. *)
Definition initialised (config : @LifecycleConfig unit) : @State unit :=
  fst (run (init clock close_ok config) (defined config)).

(** The snapshot of a completed [getHealthState()]. *)
Definition snapshot (r : @State unit * Completion (gmap string JsValue))
  : gmap string JsValue :=
  match snd r with
  | Normal st => st
  | _ => ∅
  end.

Definition no_callbacks : @LifecycleConfig unit :=
  mkConfig None None None None None None.

(** [onPing] returns the three built-in keys. *)
Definition shadowing : @LifecycleConfig unit :=
  mkConfig None
    (Some (resolve (<["healthy" := JsBool false]>
                      (<["timestamp" := JsNumber 0]>
                         (<["dependencies" := JsString "none"]> ∅)))))
    None None None None.

(** [isHealthy] says [true], [onPing] returns [{ healthy: false }]. *)
Definition overruled : @LifecycleConfig unit :=
  mkConfig None
    (Some (resolve (<["healthy" := JsBool false]> ∅)))
    (Some (resolve true))
    None None (Some ["db"]).

(** [isHealthy] says [true], [onPing] returns [{ count: 7 }]. *)
Definition custom_health : @LifecycleConfig unit :=
  mkConfig None
    (Some (resolve (<["count" := JsNumber 7]> ∅)))
    (Some (resolve true))
    None None (Some ["db"; "queue"]).

(** No dependency is declared, [onPing] returns [{ dependencies: {} }]. *)
Definition empty_mapping : @LifecycleConfig unit :=
  mkConfig None
    (Some (resolve (<["dependencies" := JsObject ∅]> ∅)))
    None None None None.

(** Two dependencies and callbacks that all complete normally. *)
Definition tracked : @LifecycleConfig unit :=
  mkConfig (Some (resolve tt))
    (Some (resolve (<["count" := JsNumber 7]> ∅)))
    None
    (Some (fun _ => resolve tt))
    (Some (resolve tt))
    (Some ["db"; "queue"]).

Definition duplicated : @LifecycleConfig unit :=
  mkConfig None None None None None (Some ["db"; "db"]).

(** [onInit] raises ["X"]; [onFailure] completes normally. *)
Definition failing_init : @LifecycleConfig unit :=
  mkConfig (Some (reject (JsError "X"))) None None
    (Some (fun _ => resolve tt))
    (Some (resolve tt))
    (Some ["db"; "queue"]).

(** [onInit] raises ["X"] and [onFailure] raises ["Y"]. *)
Definition double_failure : @LifecycleConfig unit :=
  mkConfig (Some (reject (JsError "X"))) None None
    (Some (fun _ => reject (JsError "Y")))
    None None.

(** [onFailure] raises ["Y"]. *)
Definition failing_onFailure : @LifecycleConfig unit :=
  mkConfig None None None
    (Some (fun _ => reject (JsError "Y")))
    None (Some ["db"]).

(** Listeners that throw. *)
Definition boom : @Listener unit := fun _ w => (w, Err (JsError "boom")).
Definition late : @Listener unit := fun _ w => (w, Err (JsError "late")).

(** [onShutdown] raises ["Shutdown failed"]. *)
Definition failing_cleanup : @LifecycleConfig unit :=
  mkConfig None None None None
    (Some (reject (JsError "Shutdown failed")))
    None.

(** [onPing] raises ["Ping failed"]. *)
Definition failing_ping : @LifecycleConfig unit :=
  mkConfig None (Some (reject (JsError "Ping failed"))) None None None None.

(** A listener that returns normally. *)
Definition noop : @Listener unit := fun _ w => (w, Ok tt).

(** A close that raises, as Node's does on a server that is not running. *)
Definition close_fails (w : unit) : unit * Result unit :=
  (w, Err (JsError "ERR_SERVER_NOT_RUNNING")).

(** * Properties *)

Section Properties.

Context {W : Type}.
Variable now : W -> Z.
Variable server_close : W -> W * Result unit.
Implicit Types (s : @State W) (config : @LifecycleConfig W).

(** ** Completed runs of the task combinators *)

Lemma run_async_bind {A B} (a : Async A) (f : A -> Task B) s :
  run (bind_async a f) s = and_then (run_async a s) (fun x => run (f x)).
Proof.
  revert s. induction a as [c | r IH] using Async_induction; intros s.
  - destruct c; reflexivity.
  - unfold run. cbn. specialize (IH s). destruct (r s) as [s2 a'].
    cbn in IH. apply IH.
Qed.

Lemma run_bind {A B} (m : Task A) (f : A -> Task B) s :
  run (bind m f) s = and_then (run m s) (fun x => run (f x)).
Proof.
  unfold run at 2. unfold bind.
  change (run (fun s0 => let (s1, a) := m s0 in bind_async a f s1) s)
    with (let (s1, a) := (let (s1, a) := m s in bind_async a f s1) in run_async a s1).
  destruct (m s) as [s1 a]. apply (run_async_bind a f s1).
Qed.

Lemma run_async_catch {A} (a : Async A) (h : JsValue -> Task A) s :
  run (catch_async a h) s =
  match run_async a s with
  | (s1, Thrown e) => run (h e) s1
  | r => r
  end.
Proof.
  revert s. induction a as [c | r IH] using Async_induction; intros s.
  - destruct c; reflexivity.
  - unfold run. cbn. specialize (IH s). destruct (r s) as [s2 a'].
    cbn in IH. apply IH.
Qed.

Lemma run_try_catch {A} (m : Task A) (h : JsValue -> Task A) s :
  run (try_catch m h) s =
  match run m s with
  | (s1, Thrown e) => run (h e) s1
  | r => r
  end.
Proof.
  unfold run at 2. unfold try_catch.
  change (run (fun s0 => let (s1, a) := m s0 in catch_async a h s1) s)
    with (let (s1, a) := (let (s1, a) := m s in catch_async a h s1) in run_async a s1).
  destruct (m s) as [s1 a]. apply (run_async_catch a h s1).
Qed.

Lemma run_settle_later {A} (a : Async A) s :
  run_async (settle_later a) s = run_async a s.
Proof.
  revert s. induction a as [c | r IH] using Async_induction; intros s.
  - destruct c; reflexivity.
  - cbn. specialize (IH s). destruct (r s) as [s2 a']. apply IH.
Qed.

Lemma run_await_task {A} (m : Task A) s : run (await_task m) s = run m s.
Proof.
  unfold run, await_task. destruct (m s) as [s1 a]. apply run_settle_later.
Qed.

Lemma run_ret {A} (a : A) s : run (ret a) s = (s, Normal a).
Proof. reflexivity. Qed.
Lemma run_throw {A} e s : run (@throw W A e) s = (s, Thrown e).
Proof. reflexivity. Qed.
Lemma run_gets {A} (f : State -> A) s : run (gets f) s = (s, Normal (f s)).
Proof. reflexivity. Qed.
Lemma run_modify f s : run (modify f) s = (f s, Normal tt).
Proof. reflexivity. Qed.
Lemma run_effect e s : run (effect e) s = (record e s, Normal tt).
Proof. reflexivity. Qed.
Lemma run_process_exit {A} c s :
  run (@process_exit W A c) s = (record (ProcessExit c) s, Exit c).
Proof. reflexivity. Qed.
Lemma run_await {A} (p : Promise A) s :
  run (await p) s =
  (record (Completed (source p) (rejection (settles p))) s, of_result (settles p)).
Proof. reflexivity. Qed.

Lemma run_invoke_await {A} name args (cb : Callback A) s :
  run (bind (invoke name args cb) await) s = called name args cb s.
Proof.
  unfold called. rewrite run_bind. unfold invoke. rewrite run_bind, run_effect. cbn.
  unfold run at 1. cbn. destruct (cb (world s)) as [w r]. cbn. reflexivity.
Qed.

Lemma run_call_sync {A} (f : W -> W * Result A) s :
  run (call_sync f) s = let (w, r) := f (world s) in (set_world w s, of_result r).
Proof. unfold run, call_sync. destruct (f (world s)). reflexivity. Qed.

Lemma run_call_listeners ls args s :
  run (call_listeners ls args) s =
  let (w, r) := fire ls args (world s) in (set_world w s, of_result r).
Proof.
  revert s. induction ls as [| l rest IH]; intros s; cbn [call_listeners fire].
  - rewrite run_ret. destruct s; reflexivity.
  - rewrite run_bind, run_call_sync. destruct (l args (world s)) as [w1 [[]|e]]; cbn.
    + rewrite IH. cbn. destruct (fire rest args w1). reflexivity.
    + reflexivity.
Qed.

Lemma run_emit event args s : run (emit event args) s = emitted event args s.
Proof.
  unfold emit, emitted. rewrite run_bind, run_effect. cbn [and_then].
  rewrite run_bind, run_gets. cbn [and_then]. rewrite run_bind, run_call_listeners.
  cbn. destruct (fire _ _ _) as [w [[]|e]]; reflexivity.
Qed.

Lemma and_then_ext {A B} (r1 r2 : @State W * Completion A)
    (k1 k2 : A -> State -> State * Completion B) :
  r1 = r2 -> (forall x s, k1 x s = k2 x s) -> and_then r1 k1 = and_then r2 k2.
Proof.
  intros -> Hk. destruct r2 as [s [x | e | c]]; cbn; [apply Hk | reflexivity ..].
Qed.

(** ** The health snapshot *)

Lemma run_getHealthState config s :
  run (getHealthState now config) s =
  and_then
    match onPing config with
    | Some cb => called OnPing [] cb s
    | None => (s, Normal ∅)
    end
    (fun customState s1 =>
       and_then
         match isHealthy config with
         | Some cb => called IsHealthy [] cb s1
         | None => (s1, Normal (allReady (dependencyHealth s1)))
         end
         (fun healthy s2 =>
            (s2, Normal (spread (computedState healthy (now (world s2))
                                               (dependencyHealth s1))
                                customState)))).
Proof.
  unfold getHealthState. rewrite run_bind. apply and_then_ext.
  - destruct (onPing config); [apply run_invoke_await | reflexivity].
  - intros customState s1. rewrite run_bind, run_gets. cbn [and_then].
    rewrite run_bind. apply and_then_ext.
    + destruct (isHealthy config); [apply run_invoke_await | reflexivity].
    + intros healthy s2. rewrite run_bind, run_gets. reflexivity.
Qed.

Lemma called_inv {A} name args (cb : Callback A) s s' (c : Completion A) :
  called name args cb s = (s', c) ->
  c = of_result (snd (cb (world s))) /\
  world s' = fst (cb (world s)) /\
  emitter s' = emitter s /\
  dependencyHealth s' = dependencyHealth s /\
  healthCheckService s' = healthCheckService s /\
  trace s' = trace s ++ [Invoked name args; Completed name (rejection (snd (cb (world s))))].
Proof.
  unfold called. destruct (cb (world s)) as [w r]. intros [= <- <-]. cbn.
  rewrite <- app_assoc. done.
Qed.

Lemma computedState_healthy h t d : computedState h t d !! "healthy" = Some (JsBool h).
Proof. reflexivity. Qed.
Lemma computedState_timestamp h t d : computedState h t d !! "timestamp" = Some (JsNumber t).
Proof. reflexivity. Qed.
Lemma computedState_dependencies h t d :
  computedState h t d !! "dependencies" = Some (dependenciesField d).
Proof. reflexivity. Qed.

Lemma spread_lookup (computed customState : gmap string JsValue) k :
  spread computed customState !! k =
  match customState !! k with
  | Some v => Some v
  | None => computed !! k
  end.
Proof.
  unfold spread. rewrite lookup_union. destruct (customState !! k), (computed !! k); reflexivity.
Qed.

(** A snapshot is the spread of what [onPing] returned over the computed
    fields; computing it leaves the instance as it was. *)
Lemma getHealthState_inv config s s' st :
  run (getHealthState now config) s = (s', Normal st) ->
  exists customState healthy,
    match onPing config with
    | Some ping => snd (ping (world s)) = Ok customState
    | None => customState = ∅
    end /\
    match isHealthy config with
    | Some isH => snd (isH (world_after_onPing config s)) = Ok healthy
    | None => healthy = allReady (dependencyHealth s)
    end /\
    emitter s' = emitter s /\
    dependencyHealth s' = dependencyHealth s /\
    healthCheckService s' = healthCheckService s /\
    st = spread (computedState healthy (now (world s')) (dependencyHealth s))
                customState.
Proof.
  rewrite run_getHealthState. unfold world_after_onPing.
  destruct (onPing config) as [ping |].
  - destruct (called OnPing [] ping s) as [s1 c1] eqn:H1.
    apply called_inv in H1 as (-> & Hw1 & He1 & Hd1 & Hh1 & _).
    destruct (snd (ping (world s))) as [customState | e] eqn:Hping; cbn; [| discriminate].
    destruct (isHealthy config) as [isH |].
    + destruct (called IsHealthy [] isH s1) as [s2 c2] eqn:H2.
      apply called_inv in H2 as (-> & Hw2 & He2 & Hd2 & Hh2 & _).
      destruct (snd (isH (world s1))) as [healthy | e] eqn:HisH; cbn; [| discriminate].
      intros [= <- <-]. exists customState, healthy.
      rewrite <- Hw1, HisH, He2, Hd2, Hh2, Hd1. done.
    + cbn. intros [= <- <-]. exists customState, (allReady (dependencyHealth s)).
      rewrite Hd1. done.
  - cbn. destruct (isHealthy config) as [isH |].
    + destruct (called IsHealthy [] isH s) as [s2 c2] eqn:H2.
      apply called_inv in H2 as (-> & Hw2 & He2 & Hd2 & Hh2 & _).
      destruct (snd (isH (world s))) as [healthy | e] eqn:HisH; cbn; [| discriminate].
      intros [= <- <-]. exists ∅, healthy. done.
    + cbn. intros [= <- <-]. exists ∅, (allReady (dependencyHealth s)). done.
Qed.

(** C1, as amended.  With an [onPing] callback, the snapshot is the spread
    of the mapping returned by [onPing] over the computed fields: each of
    [healthy], [timestamp] and [dependencies] carries the computed value
    (from [isHealthy] or the dependency flags, from the clock, from the
    registry) when the mapping of [onPing] has no key of that name, and
    carries the value supplied by [onPing] when it has one. *)
Theorem getHealthState_reserved_keys config s s' st ping :
  onPing config = Some ping ->
  run (getHealthState now config) s = (s', Normal st) ->
  exists customState healthy,
    snd (ping (world s)) = Ok customState /\
    match isHealthy config with
    | Some isH => snd (isH (world_after_onPing config s)) = Ok healthy
    | None => healthy = allReady (dependencyHealth s)
    end /\
    st !! "healthy" =
      match customState !! "healthy" with
      | Some v => Some v
      | None => Some (JsBool healthy)
      end /\
    st !! "timestamp" =
      match customState !! "timestamp" with
      | Some v => Some v
      | None => Some (JsNumber (now (world s')))
      end /\
    st !! "dependencies" =
      match customState !! "dependencies" with
      | Some v => Some v
      | None => Some (dependenciesField (dependencyHealth s))
      end.
Proof.
  intros Hping Hrun.
  apply getHealthState_inv in Hrun as (customState & healthy & Hc & Hh & _ & _ & _ & ->).
  rewrite Hping in Hc. exists customState, healthy.
  rewrite !spread_lookup, computedState_healthy, computedState_timestamp,
    computedState_dependencies. done.
Qed.

(** C6, as amended.  When [isHealthy] is configured and the mapping of
    [onPing] (if any) has no [healthy] key, the [healthy] field of the
    snapshot is the boolean that [isHealthy] returned, whatever the
    dependency flags are. *)
Theorem isHealthy_determines_healthy config s s' st isH :
  isHealthy config = Some isH ->
  (forall ping customState,
     onPing config = Some ping -> snd (ping (world s)) = Ok customState ->
     customState !! "healthy" = None) ->
  run (getHealthState now config) s = (s', Normal st) ->
  exists b,
    snd (isH (world_after_onPing config s)) = Ok b /\
    get_prop st "healthy" = JsBool b.
Proof.
  intros HisH Hkey Hrun.
  apply getHealthState_inv in Hrun as (customState & healthy & Hc & Hh & _ & _ & _ & ->).
  rewrite HisH in Hh. exists healthy. split; [exact Hh |].
  unfold get_prop. rewrite spread_lookup, computedState_healthy.
  destruct (onPing config) as [ping |].
  - rewrite (Hkey ping customState eq_refl Hc). reflexivity.
  - subst customState. rewrite lookup_empty. reflexivity.
Qed.

(** ** The dependency registry *)

Lemma foldl_insert_lookup (b : bool) (names : list string) (m : gmap string bool) k :
  foldl (fun m' dep => <[dep := b]> m') m names !! k =
  if decide (k ∈ names) then Some b else m !! k.
Proof.
  revert m. induction names as [| n names IH]; intros m; cbn.
  - rewrite decide_False; [done | apply not_elem_of_nil].
  - rewrite IH. destruct (decide (k ∈ names)) as [Hin | Hnin].
    + rewrite decide_True; [done | by right].
    + destruct (decide (k = n)) as [-> | Hne].
      * rewrite lookup_insert_eq, decide_True; [done | by left].
      * rewrite lookup_insert_ne by done. rewrite decide_False; [done |].
        intros [-> | ?]%elem_of_cons; done.
Qed.

Lemma declare_lookup names k :
  declare names !! k = if decide (k ∈ names) then Some false else None.
Proof. unfold declare. rewrite foldl_insert_lookup, lookup_empty. done. Qed.

Lemma declare_dom names : dom (declare names) = list_to_set names.
Proof.
  apply set_eq. intros k. rewrite elem_of_dom, declare_lookup, elem_of_list_to_set.
  destruct (decide (k ∈ names)); split; intros H; done.
Qed.

Lemma declare_size names : NoDup names -> size (declare names) = length names.
Proof.
  intros Hnd. rewrite <- size_dom, declare_dom, size_list_to_set; done.
Qed.

Lemma markAllReady_lookup (m : gmap string bool) k :
  markAllReady m !! k = (fun _ => true) <$> (m !! k).
Proof.
  unfold markAllReady. rewrite foldl_insert_lookup.
  destruct (decide (k ∈ (map_to_list m).*1)) as [Hin | Hnin].
  - apply list_elem_of_fmap in Hin as ([k' v] & -> & Hin).
    apply elem_of_map_to_list in Hin. cbn. rewrite Hin. done.
  - destruct (m !! k) as [v |] eqn:Hk; [| done].
    exfalso. apply Hnin. apply list_elem_of_fmap. exists (k, v).
    split; [done |]. by apply elem_of_map_to_list.
Qed.

Lemma markAllReady_fmap (m : gmap string bool) :
  markAllReady m = (fun _ => true) <$> m.
Proof. apply map_eq. intros k. rewrite markAllReady_lookup, lookup_fmap. done. Qed.

Lemma allReady_spec (m : gmap string bool) :
  allReady m = true <-> forall k b, m !! k = Some b -> b = true.
Proof.
  unfold allReady. rewrite forallb_forall. split.
  - intros H k b Hk. apply H. apply list_elem_of_In, list_elem_of_fmap.
    exists (k, b). split; [done |]. by apply elem_of_map_to_list.
  - intros H b [[k b'] [-> Hin]]%list_elem_of_In%list_elem_of_fmap.
    apply elem_of_map_to_list in Hin. cbn. by eapply H.
Qed.

(** C3, as amended.  Constructing the lifecycle never fails, whether the
    names repeat or not: the registry holds one entry per distinct name,
    each [false]; for a duplicate-free sequence that is one entry per
    name. *)
Theorem defineLifecycle_declares config names w :
  dependencies config = Some names ->
  exists s,
    defineLifecycle config w = Normal s /\
    dom (dependencyHealth s) = list_to_set names /\
    (forall k b, dependencyHealth s !! k = Some b -> b = false) /\
    (NoDup names -> size (dependencyHealth s) = length names).
Proof.
  intros Hdeps. unfold defineLifecycle. rewrite Hdeps. eexists. split; [reflexivity |].
  cbn. split; [apply declare_dom |]. split; [| apply declare_size].
  intros k b. rewrite declare_lookup. destruct (decide (k ∈ names)); congruence.
Qed.

(** ** Events *)

Lemma fire_quiet (ls : list (@Listener W)) args w :
  (forall l, l ∈ ls -> forall args' w', snd (l args' w') = Ok tt) ->
  snd (fire ls args w) = Ok tt.
Proof.
  revert w. induction ls as [| l rest IH]; intros w Hq; cbn; [done |].
  pose proof (Hq l ltac:(by left) args w) as Hl.
  destruct (l args w) as [w1 r]. cbn in Hl. subst r.
  apply IH. intros l' Hin. apply Hq. by right.
Qed.

Lemma emitted_quiet event args s :
  quiet event s ->
  exists w b,
    emitted event args s = (set_world w (record (Emitted event args) s), Normal b).
Proof.
  intros Hq. unfold emitted.
  pose proof (fire_quiet (listeners event (emitter s)) args (world s) Hq) as Hf.
  destruct (fire _ _ _) as [w r]. cbn in Hf. subst r. eauto.
Qed.

Lemma quiet_emitter event s s' : emitter s' = emitter s -> quiet event s -> quiet event s'.
Proof. unfold quiet. intros ->. done. Qed.

(** ** Initialisation *)

Lemma run_init config s :
  run (init now server_close config) s =
  match init_try server_close config s with
  | (s1, Thrown error) => init_catch config error s1
  | r => r
  end.
Proof.
  unfold init. rewrite run_try_catch.
  assert (Htry : forall s0, run
    (bind (emit "init" []) (fun _ =>
     bind match onInit config with
          | Some cb => bind (invoke OnInit [] cb) await
          | None => ret tt
          end (fun _ =>
     bind (modify (fun s => set_dependencyHealth (markAllReady (dependencyHealth s)) s)) (fun _ =>
     bind (startHealthCheckServer server_close
             (Some (inl (createHealthCheckCallback now config))) None) (fun service =>
     bind (modify (set_healthCheckService (Some service))) (fun _ =>
     bind (setupShutdownHandlers (Some (fun _ => shutdown config))) (fun _ =>
     bind (emit "ready" []) (fun _ => ret tt))))))) ) s0 = init_try server_close config s0).
  { intros s0. unfold init_try. rewrite run_bind, run_emit. apply and_then_ext; [done |].
    intros _ s1. rewrite run_bind. apply and_then_ext.
    { destruct (onInit config); [apply run_invoke_await | reflexivity]. }
    intros _ s2. rewrite run_bind, run_modify. cbn [and_then].
    rewrite run_bind. unfold startHealthCheckServer. rewrite run_bind, run_effect.
    cbn [and_then]. rewrite run_ret. cbn [and_then].
    rewrite run_bind, run_modify. cbn [and_then].
    rewrite run_bind. unfold setupShutdownHandlers. rewrite run_bind, run_effect.
    cbn [and_then]. rewrite run_effect. cbn [and_then].
    rewrite run_bind, run_emit. reflexivity. }
  rewrite Htry. destruct (init_try server_close config s) as [s1 [[] | error | c]]; try reflexivity.
  unfold init_catch. rewrite run_bind, run_emit. apply and_then_ext; [done |].
  intros _ s2. rewrite run_bind. apply and_then_ext.
  { destruct (onFailure config); [apply run_invoke_await | reflexivity]. }
  intros _ s3. reflexivity.
Qed.

Lemma called_rejects {A} name args (cb : Callback A) e s :
  rejects cb e ->
  exists w,
    called name args cb s =
    (record (Completed name (Some e)) (set_world w (record (Invoked name args) s)),
     Thrown e).
Proof.
  intros Hr. unfold called. specialize (Hr (world s)).
  destruct (cb (world s)) as [w r]. cbn in Hr. subst r. eauto.
Qed.

Lemma called_fulfils {A} name args (cb : Callback A) s :
  fulfils cb ->
  exists w a,
    called name args cb s =
    (record (Completed name None) (set_world w (record (Invoked name args) s)),
     Normal a).
Proof.
  intros Hf. unfold called. destruct (Hf (world s)) as [a Ha].
  destruct (cb (world s)) as [w r]. cbn in Ha. subst r. eauto.
Qed.


Tactic Notation "fields" :=
  cbn [trace world emitter dependencyHealth healthCheckService record
       set_world set_emitter set_dependencyHealth set_healthCheckService set_up].
Tactic Notation "fields" "in" hyp(H) :=
  cbn [trace world emitter dependencyHealth healthCheckService record
       set_world set_emitter set_dependencyHealth set_healthCheckService set_up]
    in H.

Lemma emitted_throwing event args s e :
  throwing event s e ->
  exists w,
    emitted event args s = (set_world w (record (Emitted event args) s), Thrown e).
Proof.
  intros Ht. unfold emitted. specialize (Ht args (world s)).
  destruct (fire _ _ _) as [w r]. cbn in Ht. subst r. eauto.
Qed.

Lemma throwing_emitter event s s' e :
  emitter s' = emitter s -> throwing event s e -> throwing event s' e.
Proof. unfold throwing. intros ->. done. Qed.

Lemma markAllReady_true (m : gmap string bool) k b :
  markAllReady m !! k = Some b -> b = true.
Proof.
  rewrite markAllReady_lookup. destruct (m !! k); cbn; congruence.
Qed.


(** ** Shutdown *)

Lemma run_shutdown config s : run (shutdown config) s = shutdown_run config s.
Proof.
  unfold shutdown, shutdown_run. rewrite run_bind, run_effect. cbn [and_then].
  rewrite run_bind, run_gets. cbn [and_then]. cbv zeta.
  rewrite run_bind. apply and_then_ext.
  { destruct (healthCheckService _); [apply run_invoke_await | reflexivity]. }
  intros _ s1. rewrite run_bind. apply and_then_ext.
  { destruct (onShutdown config); [apply run_invoke_await | reflexivity]. }
  intros _ s2. rewrite run_bind, run_emit. apply and_then_ext; [done |].
  intros _ s3. apply run_process_exit.
Qed.

Lemma emissions_app event (l1 l2 : list Effect) :
  emissions event (l1 ++ l2) = emissions event l1 ++ emissions event l2.
Proof. apply omap_app. Qed.

Lemma invocations_app cb (l1 l2 : list Effect) :
  invocations cb (l1 ++ l2) = invocations cb l1 ++ invocations cb l2.
Proof. apply omap_app. Qed.

Lemma count_app p (l1 l2 : list Effect) :
  count p (l1 ++ l2) = (count p l1 + count p l2)%nat.
Proof. unfold count. rewrite List.filter_app, length_app. done. Qed.

(** When close and [onShutdown] complete normally and no listener of
    [done] throws, [shutdown()] emits [done] once and exits with 0. *)
Lemma shutdown_completes config s :
  (forall svc, healthCheckService s = Some svc -> fulfils (close svc)) ->
  (forall cb, onShutdown config = Some cb -> fulfils cb) ->
  quiet "done" s ->
  exists s' t,
    run (shutdown config) s = (s', Exit 0) /\
    trace s' = trace s ++ t /\
    emissions "done" t = [[]] /\
    count is_exit t = 1%nat /\
    last t = Some (ProcessExit 0).
Proof.
  intros Hclose Hcb Hq. rewrite run_shutdown. unfold shutdown_run. cbv zeta.
  set (s0 := record _ s).
  assert (H1 : exists s1 t1,
    match healthCheckService s0 with
    | Some svc => called ServerClose [] (close svc) s0
    | None => (s0, Normal tt)
    end = (s1, Normal tt) /\ emitter s1 = emitter s /\
    trace s1 = trace s0 ++ t1 /\ emissions "done" t1 = [] /\ count is_exit t1 = 0%nat).
  { subst s0. fields. destruct (healthCheckService s) as [svc |].
    - match goal with |- context [called _ _ _ ?x] =>
        destruct (called_fulfils ServerClose [] (close svc) x (Hclose svc eq_refl))
          as (w & [] & ->) end.
      eexists. exists [Invoked ServerClose []; Completed ServerClose None].
      split; [reflexivity |]. fields. rewrite <- !app_assoc. done.
    - eexists. exists []. split; [reflexivity |]. fields. rewrite app_nil_r. done. }
  destruct H1 as (s1 & t1 & -> & He1 & Ht1 & Hd1 & Hx1). cbn [and_then].
  assert (H2 : exists s2 t2,
    match onShutdown config with
    | Some cb => called OnShutdown [] cb s1
    | None => (s1, Normal tt)
    end = (s2, Normal tt) /\ emitter s2 = emitter s /\
    trace s2 = trace s1 ++ t2 /\ emissions "done" t2 = [] /\ count is_exit t2 = 0%nat).
  { destruct (onShutdown config) as [cb |].
    - destruct (called_fulfils OnShutdown [] cb s1 (Hcb cb eq_refl)) as (w & [] & ->).
      eexists. exists [Invoked OnShutdown []; Completed OnShutdown None].
      split; [reflexivity |]. fields. rewrite <- !app_assoc. done.
    - eexists. exists []. split; [reflexivity |]. rewrite app_nil_r. done. }
  destruct H2 as (s2 & t2 & -> & He2 & Ht2 & Hd2 & Hx2). cbn [and_then].
  destruct (emitted_quiet "done" [] s2) as (w3 & b3 & ->).
  { eapply quiet_emitter; [| exact Hq]. exact He2. }
  cbn [and_then]. eexists.
  exists (LogInfo [] "Initiating graceful shutdown..." :: t1 ++ t2 ++
          [Emitted "done" []; ProcessExit 0]).
  split; [reflexivity |]. fields. rewrite Ht2, Ht1. subst s0. fields.
  rewrite <- !app_assoc. split; [reflexivity |].
  change (?e :: t1 ++ ?l) with ([e] ++ t1 ++ l).
  rewrite !emissions_app, !count_app, Hd1, Hd2, Hx1, Hx2.
  split; [reflexivity |]. split; [reflexivity |].
  rewrite !app_assoc. change [Emitted "done" []; ProcessExit 0] with ([Emitted "done" []] ++ [ProcessExit 0]).
  rewrite app_assoc. apply last_snoc.
Qed.

Lemma shutdown_rejects config s e :
  shutdown_step_rejects config s e ->
  exists s' t,
    run (shutdown config) s = (s', Thrown e) /\
    trace s' = trace s ++ t /\
    emissions "done" t = [] /\
    count is_exit t = 0%nat.
Proof.
  intros Hrej. rewrite run_shutdown. unfold shutdown_run. cbv zeta.
  set (s0 := record _ s).
  destruct Hrej as [(svc & Hsvc & Hr) | (Hclose & cb & Hcb & Hr)].
  - subst s0. fields. rewrite Hsvc.
    match goal with |- context [called _ _ _ ?x] =>
      destruct (called_rejects ServerClose [] (close svc) e x Hr) as (w & ->) end.
    cbn [and_then]. eexists. eexists. split; [reflexivity |]. fields.
    rewrite <- !app_assoc. split; [reflexivity |]. done.
  - assert (H1 : exists s1 t1,
      match healthCheckService s0 with
      | Some svc => called ServerClose [] (close svc) s0
      | None => (s0, Normal tt)
      end = (s1, Normal tt) /\
      trace s1 = trace s0 ++ t1 /\ emissions "done" t1 = [] /\ count is_exit t1 = 0%nat).
    { subst s0. fields. destruct (healthCheckService s) as [svc |].
      - match goal with |- context [called _ _ _ ?x] =>
          destruct (called_fulfils ServerClose [] (close svc) x (Hclose svc eq_refl))
            as (w & [] & ->) end.
        eexists. exists [Invoked ServerClose []; Completed ServerClose None].
        split; [reflexivity |]. fields. rewrite <- !app_assoc. done.
      - eexists. exists []. split; [reflexivity |]. fields. rewrite app_nil_r. done. }
    destruct H1 as (s1 & t1 & -> & Ht1 & Hd1 & Hx1). cbn [and_then]. rewrite Hcb.
    destruct (called_rejects OnShutdown [] cb e s1 Hr) as (w & ->).
    cbn [and_then]. eexists.
    exists (LogInfo [] "Initiating graceful shutdown..." :: t1 ++
            [Invoked OnShutdown []; Completed OnShutdown (Some e)]).
    split; [reflexivity |]. fields. rewrite Ht1. subst s0. fields.
    rewrite <- !app_assoc. split; [reflexivity |].
    change (?x :: t1 ++ ?l) with ([x] ++ t1 ++ l).
    rewrite !emissions_app, !count_app, Hd1, Hx1. done.
Qed.

Lemma called_stays {A} name args (cb : Callback A) s :
  ~ exists s' code, called name args cb s = (s', Exit code).
Proof.
  unfold called. destruct (cb (world s)) as [w [a | e]]; intros (s' & code & [=]).
Qed.

Lemma emitted_stays event args s :
  ~ exists s' code, emitted event args s = (s', Exit code).
Proof.
  unfold emitted. destruct (fire _ _ _) as [w [a | e]]; intros (s' & code & [=]).
Qed.

(** [shutdown()] never returns normally: it exits with 0 or it throws. *)
Lemma shutdown_outcome config s :
  exists s',
    (run (shutdown config) s = (s', Exit 0) /\
     last (trace s') = Some (ProcessExit 0)) \/
    exists e, run (shutdown config) s = (s', Thrown e).
Proof.
  rewrite run_shutdown. unfold shutdown_run. cbv zeta.
  set (s0 := record _ s). clearbody s0.
  destruct (match healthCheckService s0 with
            | Some svc => called ServerClose [] (close svc) s0
            | None => (s0, Normal tt)
            end) as [s1 [[] | e | c]] eqn:H1; cbn [and_then]; [| eauto |].
  2:{ destruct (healthCheckService s0); [| discriminate].
      exfalso. eapply called_stays; eauto. }
  destruct (match onShutdown config with
            | Some cb => called OnShutdown [] cb s1
            | None => (s1, Normal tt)
            end) as [s2 [[] | e | c]] eqn:H2; cbn [and_then]; [| eauto |].
  2:{ destruct (onShutdown config); [| discriminate].
      exfalso. eapply called_stays; eauto. }
  destruct (emitted "done" [] s2) as [s3 [b | e | c]] eqn:H3; cbn [and_then]; [| eauto |].
  - eexists. left. split; [reflexivity |]. fields. apply last_snoc.
  - exfalso. eapply emitted_stays; eauto.
Qed.

(** The handler that [init] registers for [nodeSignal]. *)
Lemma run_handleSignal config nodeSignal shutdownSignal s :
  run (handleSignal (Some (fun _ => shutdown config)) nodeSignal shutdownSignal) s =
  match run (shutdown config)
            (record (LogInfo [("signal", JsString nodeSignal)]
                             "Signal received, initiating graceful shutdown") s) with
  | (s1, Thrown error) =>
      (record (ProcessExit 0)
         (record (LogError [("error", error); ("signal", JsString nodeSignal)]
                           "Error during shutdown") s1),
       Exit 0)
  | (s1, Normal _) => (record (ProcessExit 0) s1, Exit 0)
  | (s1, Exit code) => (s1, Exit code)
  end.
Proof.
  unfold handleSignal. rewrite run_bind, run_effect. cbn [and_then].
  rewrite run_bind, run_try_catch, run_await_task.
  destruct (run (shutdown config) _) as [s1 [[] | error | code]]; cbn [and_then].
  - apply run_process_exit.
  - rewrite run_effect. cbn [and_then]. apply run_process_exit.
  - reflexivity.
Qed.

(** On the signal path the process exits with 0 whatever [shutdown()]
    does. *)
Lemma handleSignal_exits config nodeSignal shutdownSignal s :
  exists s',
    run (handleSignal (Some (fun _ => shutdown config)) nodeSignal shutdownSignal) s =
    (s', Exit 0) /\
    last (trace s') = Some (ProcessExit 0).
Proof.
  rewrite run_handleSignal.
  set (s0 := record _ s).
  destruct (shutdown_outcome config s0) as (s1 & [[-> Hl] | (e & ->)]).
  - eauto.
  - eexists. split; [reflexivity |]. fields. apply last_snoc.
Qed.

Lemma handleSignal_catches config nodeSignal shutdownSignal s e :
  shutdown_step_rejects config s e ->
  exists s' t,
    run (handleSignal (Some (fun _ => shutdown config)) nodeSignal shutdownSignal) s =
    (s', Exit 0) /\
    trace s' = trace s ++ t /\
    emissions "done" t = [] /\
    LogError [("error", e); ("signal", JsString nodeSignal)] "Error during shutdown" ∈ t /\
    last t = Some (ProcessExit 0).
Proof.
  intros Hrej. rewrite run_handleSignal.
  set (s0 := record _ s).
  destruct (shutdown_rejects config s0 e) as (s1 & t1 & -> & Ht1 & Hd1 & _).
  { exact Hrej. }
  eexists.
  exists (LogInfo [("signal", JsString nodeSignal)]
                  "Signal received, initiating graceful shutdown" :: t1 ++
          [LogError [("error", e); ("signal", JsString nodeSignal)] "Error during shutdown";
           ProcessExit 0]).
  split; [reflexivity |]. fields. rewrite Ht1. subst s0. fields.
  rewrite <- !app_assoc. split; [reflexivity |].
  change (?x :: t1 ++ ?l) with ([x] ++ t1 ++ l).
  rewrite !emissions_app, Hd1. split; [reflexivity |].
  split; [set_solver |].
  rewrite !app_assoc.
  change [?a; ProcessExit 0] with ([a] ++ [ProcessExit 0]).
  rewrite app_assoc. apply last_snoc.
Qed.


(** In a completed run of [shutdown()] every invocation of [onShutdown]
    comes after the completion of close. *)
Lemma shutdown_trace_order config s svc cb :
  healthCheckService s = Some svc ->
  onShutdown config = Some cb ->
  exists s' c t,
    run (shutdown config) s = (s', c) /\
    trace s' = trace s ++ t /\
    preceded_by (Completed ServerClose None) (is_invoked OnShutdown) t.
Proof.
  intros Hsvc Hcb. rewrite run_shutdown. unfold shutdown_run. cbv zeta.
  fields. rewrite Hsvc, Hcb. unfold called at 1. fields.
  destruct (close svc (world s)) as [w1 [[] | e1]]; cbn [of_result rejection and_then].
  - unfold called. fields.
    destruct (cb w1) as [w2 [[] | e2]]; cbn [of_result rejection and_then].
    + destruct (emitted "done" [] _) as [s3 c3] eqn:Hdone.
      unfold emitted in Hdone. fields in Hdone.
      destruct (fire _ _ _) as [w3 r3]. injection Hdone as <- <-.
      destruct r3 as [[] | e3]; cbn [and_then].
      * eexists. eexists. eexists. split; [reflexivity |]. fields.
        rewrite <- !app_assoc. split; [reflexivity |].
        intros i e Hi He. exists 2%nat.
        do 7 (destruct i as [| i];
               [cbn in Hi; injection Hi as <-;
                first [discriminate | split; [lia | reflexivity]] |]).
        discriminate.
      * eexists. eexists. eexists. split; [reflexivity |]. fields.
        rewrite <- !app_assoc. split; [reflexivity |].
        intros i e Hi He. exists 2%nat.
        do 6 (destruct i as [| i];
               [cbn in Hi; injection Hi as <-;
                first [discriminate | split; [lia | reflexivity]] |]).
        discriminate.
    + eexists. eexists. eexists. split; [reflexivity |]. fields.
      rewrite <- !app_assoc. split; [reflexivity |].
      intros i e Hi He. exists 2%nat.
        do 5 (destruct i as [| i];
               [cbn in Hi; injection Hi as <-;
                first [discriminate | split; [lia | reflexivity]] |]).
        discriminate.
  - eexists. eexists. eexists. split; [reflexivity |]. fields.
    rewrite <- !app_assoc. split; [reflexivity |].
    intros i e Hi He.
    do 3 (destruct i as [| i]; [cbn in Hi; injection Hi as <-; discriminate |]).
    discriminate.
Qed.

(** The segments of [shutdown()]: the call itself goes as far as calling
    close; the rest runs when the task is resumed, in whatever state [sx]
    that happens, and starts by taking note of the completion of close. *)
Lemma shutdown_segments config s svc cb :
  healthCheckService s = Some svc ->
  onShutdown config = Some cb ->
  exists k1,
    shutdown config s =
    (set_world (fst (close svc (world s)))
       (record (Invoked ServerClose [])
          (record (LogInfo [] "Initiating graceful shutdown...") s)),
     Pending k1) /\
    forall sx,
      match snd (close svc (world s)) with
      | Err e =>
          k1 sx = (record (Completed ServerClose (Some e)) sx, Settled (Thrown e))
      | Ok _ =>
          exists k2,
            k1 sx =
            (set_world (fst (cb (world sx)))
               (record (Invoked OnShutdown [])
                  (record (Completed ServerClose None) sx)),
             Pending k2)
      end.
Proof.
  intros Hsvc Hcb. unfold shutdown, bind, effect, modify, gets, invoke, await, bind.
  cbn. rewrite Hsvc, Hcb. cbn. destruct (close svc (world s)) as [w [[] | e]]; cbn.
  - eexists. split; [reflexivity |]. intros sx. cbn.
    destruct (cb (world sx)) as [w' r']. cbn. eauto.
  - eexists. split; [reflexivity |]. intros sx. reflexivity.
Qed.

(** C8.  In an execution of [shutdown()] with a started health server and
    a configured [onShutdown], [onShutdown] is invoked only after close
    has completed: in the trace of a completed run every invocation of
    [onShutdown] comes after the completion of close, and the segment of
    [shutdown()] that runs before close has completed does not invoke
    [onShutdown], whenever the task is resumed. *)
Theorem shutdown_closes_before_onShutdown config s svc cb :
  healthCheckService s = Some svc ->
  onShutdown config = Some cb ->
  (exists s' c t,
     run (shutdown config) s = (s', c) /\
     trace s' = trace s ++ t /\
     preceded_by (Completed ServerClose None) (is_invoked OnShutdown) t) /\
  (exists k1,
     shutdown config s =
     (set_world (fst (close svc (world s)))
        (record (Invoked ServerClose [])
           (record (LogInfo [] "Initiating graceful shutdown...") s)),
      Pending k1) /\
     forall sx,
       match snd (close svc (world s)) with
       | Err e =>
           k1 sx = (record (Completed ServerClose (Some e)) sx, Settled (Thrown e))
       | Ok _ =>
           exists k2,
             k1 sx =
             (set_world (fst (cb (world sx)))
                (record (Invoked OnShutdown [])
                   (record (Completed ServerClose None) sx)),
              Pending k2)
       end).
Proof.
  intros Hsvc Hcb. split.
  - by apply (shutdown_trace_order config s svc cb).
  - by apply shutdown_segments.
Qed.

(** The first synchronous segment of [shutdown()], up to its first
    [await]. *)
Lemma shutdown_begins_with_close config s svc :
  healthCheckService s = Some svc ->
  exists k,
    shutdown config s =
    (set_world (fst (close svc (world s)))
       (record (Invoked ServerClose [])
          (record (LogInfo [] "Initiating graceful shutdown...") s)),
     Pending k).
Proof.
  intros Hsvc. unfold shutdown, bind, effect, modify, gets, invoke, await, bind.
  cbn. rewrite Hsvc. cbn. destruct (close svc (world s)) as [w r]. cbn. eauto.
Qed.

Lemma shutdown_begins_with_onShutdown config s cb :
  healthCheckService s = None ->
  onShutdown config = Some cb ->
  exists k,
    shutdown config s =
    (set_world (fst (cb (world s)))
       (record (Invoked OnShutdown [])
          (record (LogInfo [] "Initiating graceful shutdown...") s)),
     Pending k).
Proof.
  intros Hsvc Hcb. unfold shutdown, bind, effect, modify, gets, invoke, await, bind.
  cbn. rewrite Hsvc, Hcb. cbn. destruct (cb (world s)) as [w r]. cbn. eauto.
Qed.

(** C4, as amended.  [shutdown()] has no guard: a second invocation made
    while the first one is suspended at its [await] is neither rejected
    nor a no-op.  When a health server was started, the handle is still
    set and both invocations call close; when none was started, both
    invocations call [onShutdown]. *)
Theorem shutdown_twice config s :
  (forall svc,
     healthCheckService s = Some svc ->
     exists s1 k1 s2 k2,
       shutdown config s = (s1, Pending k1) /\
       shutdown config s1 = (s2, Pending k2) /\
       healthCheckService s1 = Some svc /\
       count (is_invoked ServerClose) (trace s2) =
       (count (is_invoked ServerClose) (trace s) + 2)%nat) /\
  (forall cb,
     healthCheckService s = None ->
     onShutdown config = Some cb ->
     exists s1 k1 s2 k2,
       shutdown config s = (s1, Pending k1) /\
       shutdown config s1 = (s2, Pending k2) /\
       count (is_invoked OnShutdown) (trace s2) =
       (count (is_invoked OnShutdown) (trace s) + 2)%nat).
Proof.
  split.
  - intros svc Hsvc.
    destruct (shutdown_begins_with_close config s svc Hsvc) as (k1 & H1).
    eexists. exists k1.
    match type of H1 with _ = (?s1, _) =>
      destruct (shutdown_begins_with_close config s1 svc Hsvc) as (k2 & H2) end.
    eexists. exists k2. split; [exact H1 |]. split; [exact H2 |].
    split; [exact Hsvc |]. fields. rewrite !count_app. cbn. lia.
  - intros cb Hsvc Hcb.
    destruct (shutdown_begins_with_onShutdown config s cb Hsvc Hcb) as (k1 & H1).
    eexists. exists k1.
    match type of H1 with _ = (?s1, _) =>
      destruct (shutdown_begins_with_onShutdown config s1 cb Hsvc Hcb) as (k2 & H2) end.
    eexists. exists k2. split; [exact H1 |]. split; [exact H2 |].
    fields. rewrite !count_app. cbn. lia.
Qed.

(** ** The health endpoint *)

Lemma getHealthState_stays config s :
  ~ exists s' code, run (getHealthState now config) s = (s', Exit code).
Proof.
  rewrite run_getHealthState. intros (s' & code & H).
  destruct (match onPing config with
            | Some cb => called OnPing [] cb s
            | None => (s, Normal ∅)
            end) as [s1 [customState | e | c]] eqn:H1; cbn [and_then] in H;
    [| discriminate |].
  2:{ destruct (onPing config); [| discriminate]. eapply called_stays; eauto. }
  destruct (match isHealthy config with
            | Some cb => called IsHealthy [] cb s1
            | None => (s1, Normal (allReady (dependencyHealth s1)))
            end) as [s2 [healthy | e | c]] eqn:H2; cbn [and_then] in H;
    [discriminate | discriminate |].
  destruct (isHealthy config); [| discriminate]. eapply called_stays; eauto.
Qed.

(** The completed run of the health callback: what [res] receives. *)
Lemma run_createHealthCheckCallback config req s :
  run (createHealthCheckCallback now config req) s =
  if String.eqb (url req) "/health" then
    match run (getHealthState now config) s with
    | (s1, Normal state) =>
        (record (End_ (Some (JsObject state)))
           (record (WriteHead (if truthy (get_prop state "healthy")
                               then 200%Z else 503%Z)
                              (Some "application/json")) s1),
         Normal tt)
    | (s1, Thrown err) =>
        (record (End_ (Some (JsObject
                   (<["healthy" := JsBool false]>
                      (<["error" := JsString "Failed to get health state"]> ∅)))))
           (record (WriteHead 503%Z (Some "application/json"))
              (record (LogError [("err", err)] "Error getting health state") s1)),
         Normal tt)
    | (s1, Exit code) => (s1, Exit code)
    end
  else
    (record (End_ None) (record (WriteHead 404%Z None) s), Normal tt).
Proof.
  unfold createHealthCheckCallback. destruct (String.eqb (url req) "/health").
  - rewrite run_try_catch, run_bind, run_await_task.
    destruct (run (getHealthState now config) s) as [s1 [state | err | code]];
      cbn [and_then].
    + rewrite run_bind, run_effect. cbn [and_then]. rewrite run_effect. reflexivity.
    + rewrite run_bind, run_effect. cbn [and_then].
      rewrite run_bind, run_effect. cbn [and_then]. rewrite run_effect. reflexivity.
    + reflexivity.
  - unfold notFound. rewrite run_bind, run_effect. cbn [and_then].
    rewrite run_effect. reflexivity.
Qed.

(** C9.  The request handler of the health endpoint never propagates an
    exception; when [getHealthState()] raises, the handler logs the error
    and responds with status 503 and an error-shaped JSON body. *)
Theorem health_endpoint_never_throws config req s :
  (exists s',
     run (requestHandler (Some (inl (createHealthCheckCallback now config))) req) s =
     (s', Normal tt)) /\
  (exists s',
     run (createHealthCheckCallback now config req) s = (s', Normal tt)) /\
  (forall s1 err,
     url req = "/health" ->
     run (getHealthState now config) s = (s1, Thrown err) ->
     run (createHealthCheckCallback now config req) s =
     (record (End_ (Some (JsObject
                (<["healthy" := JsBool false]>
                   (<["error" := JsString "Failed to get health state"]> ∅)))))
        (record (WriteHead 503%Z (Some "application/json"))
           (record (LogError [("err", err)] "Error getting health state") s1)),
      Normal tt)).
Proof.
  assert (Hcb : exists s',
            run (createHealthCheckCallback now config req) s = (s', Normal tt)).
  { rewrite run_createHealthCheckCallback. destruct (String.eqb (url req) "/health"); [| eauto].
    destruct (run (getHealthState now config) s) as [s1 [state | err | code]] eqn:H;
      [eauto | eauto |].
    exfalso. eapply getHealthState_stays; eauto. }
  split; [| split; [exact Hcb |]].
  - unfold requestHandler.
    destruct (String.eqb (url req) "/health" && String.eqb (method req) "GET");
      [exact Hcb |].
    unfold notFound. rewrite run_bind, run_effect. cbn [and_then].
    rewrite run_effect. eauto.
  - intros s1 err Hurl Hrun. rewrite run_createHealthCheckCallback, Hurl, Hrun.
    reflexivity.
Qed.

(** ** The registry in every reachable state *)

Lemma and_then_fst {A B} (P : @State W -> Prop) (r : State * Completion A)
    (k : A -> State -> State * Completion B) :
  P (fst r) -> (forall x s1, P s1 -> P (fst (k x s1))) -> P (fst (and_then r k)).
Proof. destruct r as [s1 [x | e | c]]; cbn; eauto. Qed.

Lemma called_registry {A} name args (cb : Callback A) s :
  dependencyHealth (fst (called name args cb s)) = dependencyHealth s.
Proof. unfold called. destruct (cb (world s)). reflexivity. Qed.

Lemma emitted_registry event args s :
  dependencyHealth (fst (emitted event args s)) = dependencyHealth s.
Proof. unfold emitted. destruct (fire _ _ _). reflexivity. Qed.

Lemma getHealthState_registry config s :
  dependencyHealth (fst (run (getHealthState now config) s)) = dependencyHealth s.
Proof.
  rewrite run_getHealthState.
  apply (and_then_fst (fun s' => dependencyHealth s' = dependencyHealth s)).
  { destruct (onPing config); [apply called_registry | reflexivity]. }
  intros customState s1 H1.
  apply (and_then_fst (fun s' => dependencyHealth s' = dependencyHealth s)).
  { destruct (isHealthy config); [rewrite called_registry |]; exact H1. }
  intros healthy s2 H2. exact H2.
Qed.

Lemma shutdown_registry config s :
  dependencyHealth (fst (run (shutdown config) s)) = dependencyHealth s.
Proof.
  rewrite run_shutdown. unfold shutdown_run. cbv zeta.
  apply (and_then_fst (fun s' => dependencyHealth s' = dependencyHealth s)).
  { destruct (healthCheckService _); [rewrite called_registry |]; reflexivity. }
  intros _ s1 H1.
  apply (and_then_fst (fun s' => dependencyHealth s' = dependencyHealth s)).
  { destruct (onShutdown config); [rewrite called_registry |]; exact H1. }
  intros _ s2 H2.
  apply (and_then_fst (fun s' => dependencyHealth s' = dependencyHealth s)).
  { rewrite emitted_registry. exact H2. }
  intros _ s3 H3. exact H3.
Qed.

Lemma handleSignal_registry config nodeSignal shutdownSignal s :
  dependencyHealth
    (fst (run (handleSignal (Some (fun _ => shutdown config)) nodeSignal shutdownSignal) s))
  = dependencyHealth s.
Proof.
  rewrite run_handleSignal.
  match goal with |- context [run (shutdown config) ?s0] =>
    pose proof (shutdown_registry config s0) as H;
    destruct (run (shutdown config) s0) as [s1 [[] | e | c]] end; exact H.
Qed.

Lemma request_registry config req s :
  dependencyHealth
    (fst (run (requestHandler (Some (inl (createHealthCheckCallback now config))) req) s))
  = dependencyHealth s.
Proof.
  unfold requestHandler.
  destruct (String.eqb (url req) "/health" && String.eqb (method req) "GET").
  - rewrite run_createHealthCheckCallback. destruct (String.eqb (url req) "/health");
      [| reflexivity].
    pose proof (getHealthState_registry config s) as H.
    destruct (run (getHealthState now config) s) as [s1 [st | e | c]]; exact H.
  - reflexivity.
Qed.

Lemma markAllReady_dom (m : gmap string bool) : dom (markAllReady m) = dom m.
Proof. rewrite markAllReady_fmap. apply dom_fmap_L. Qed.

Lemma init_registry config s :
  dom (dependencyHealth (fst (run (init now server_close config) s))) =
  dom (dependencyHealth s).
Proof.
  rewrite run_init.
  set (P := fun s' : @State W => dom (dependencyHealth s') = dom (dependencyHealth s)).
  assert (Htry : P (fst (init_try server_close config s))).
  { unfold init_try. apply (and_then_fst P).
    { unfold P. by rewrite emitted_registry. }
    intros _ s1 H1. apply (and_then_fst P).
    { unfold P in *. destruct (onInit config); [rewrite called_registry |]; exact H1. }
    intros _ s2 H2. apply (and_then_fst P).
    { unfold P in *. rewrite emitted_registry. fields. by rewrite markAllReady_dom. }
    intros _ s3 H3. exact H3. }
  destruct (init_try server_close config s) as [s1 [[] | error | c]]; try exact Htry.
  cbn [fst] in Htry. unfold init_catch. apply (and_then_fst P).
  { unfold P in *. by rewrite emitted_registry. }
  intros _ s2 H2. apply (and_then_fst P).
  { unfold P in *. destruct (onFailure config); [rewrite called_registry |]; exact H2. }
  intros _ s3 H3. exact H3.
Qed.

(** Every reachable state tracks exactly the declared names. *)
Lemma reachable_registry config s :
  reachable now server_close config s ->
  dom (dependencyHealth s) = list_to_set (declared config).
Proof.
  induction 1 as [w s Hdef | | | | | | |]; try exact IHreachable.
  - unfold defineLifecycle in Hdef. injection Hdef as <-. cbn. unfold declared.
    destruct (dependencies config) as [names |]; cbn.
    + apply declare_dom.
    + apply dom_empty_L.
  - by rewrite init_registry.
  - by rewrite getHealthState_registry.
  - by rewrite request_registry.
  - by rewrite shutdown_registry.
  - by rewrite handleSignal_registry.
Qed.

Lemma init_catch_not_normal config error s s' :
  init_catch config error s <> (s', Normal tt).
Proof.
  unfold init_catch.
  destruct (emitted "failure" [error] s) as [s1 [b | e | c]]; cbn [and_then];
    [| discriminate ..].
  destruct (match onFailure config with
            | Some cb => called OnFailure [error] (cb error) s1
            | None => (s1, Normal tt)
            end) as [s2 [[] | e | c]]; cbn [and_then]; discriminate.
Qed.

(** After a successful [init()] every tracked flag is [true] and the
    health server is started. *)
Lemma init_success config s s' :
  run (init now server_close config) s = (s', Normal tt) ->
  dependencyHealth s' = markAllReady (dependencyHealth s) /\
  healthCheckService s' = Some {| close := server_close; port := DEFAULT_PORT |}.
Proof.
  rewrite run_init.
  destruct (init_try server_close config s) as [s1 [[] | error | c]] eqn:Htry;
    [| intros H; by apply init_catch_not_normal in H | discriminate].
  intros [= <-]. revert Htry. unfold init_try.
  destruct (emitted "init" [] s) as [s2 [b | e | c]] eqn:H2; cbn [and_then];
    [| discriminate ..].
  pose proof (emitted_registry "init" [] s) as Hd2. rewrite H2 in Hd2. cbn [fst] in Hd2.
  destruct (match onInit config with
            | Some cb => called OnInit [] cb s2
            | None => (s2, Normal tt)
            end) as [s3 [[] | e | c]] eqn:H3; cbn [and_then]; [| discriminate ..].
  assert (Hd3 : dependencyHealth s3 = dependencyHealth s).
  { destruct (onInit config) as [cb |].
    - pose proof (called_registry OnInit [] cb s2) as H. rewrite H3 in H. cbn in H.
      congruence.
    - injection H3 as <-. exact Hd2. }
  unfold emitted. fields. destruct (fire _ _ _) as [w r].
  destruct r as [[] | e]; cbn [and_then]; [| discriminate].
  intros [= <-]. fields. rewrite Hd3. done.
Qed.

Lemma ready_mapping names :
  JsBool <$> markAllReady (declare names) =
  gset_to_gmap (JsBool true) (list_to_set names).
Proof.
  apply map_eq. intros k.
  rewrite lookup_fmap, markAllReady_lookup, declare_lookup, lookup_gset_to_gmap.
  destruct (decide (k ∈ names)) as [Hin | Hnin].
  - rewrite option_guard_True; [done |]. by apply elem_of_list_to_set.
  - rewrite option_guard_False; [done |]. by rewrite elem_of_list_to_set.
Qed.

Lemma declare_nonempty names : names <> [] -> (0 <? size (declare names))%nat = true.
Proof.
  intros Hne. apply Nat.ltb_lt. destruct names as [| n names]; [done |].
  assert (declare (n :: names) !! n = Some false) as Hn.
  { rewrite declare_lookup, decide_True; [done | by left]. }
  destruct (size (declare (n :: names))) eqn:Hs; [| lia].
  apply map_size_empty_iff in Hs. rewrite Hs, lookup_empty in Hn. done.
Qed.

(** C7, as amended.  Provided the mapping returned by [onPing] has no
    [dependencies] key: after a successful [init()] on a non-empty
    declared name sequence, [getHealthState().dependencies] is the mapping
    of every declared name to [true]; and with no declared dependencies
    [getHealthState().dependencies] is [undefined] in every reachable
    state. *)
Theorem dependencies_field config :
  (forall ping w customState,
     onPing config = Some ping -> snd (ping w) = Ok customState ->
     customState !! "dependencies" = None) ->
  (forall names s0 s1 s2 st,
     names <> [] ->
     dependencyHealth s0 = declare names ->
     run (init now server_close config) s0 = (s1, Normal tt) ->
     run (getHealthState now config) s1 = (s2, Normal st) ->
     get_prop st "dependencies" =
     JsObject (gset_to_gmap (JsBool true) (list_to_set names))) /\
  (forall s s' st,
     declared config = [] ->
     reachable now server_close config s ->
     run (getHealthState now config) s = (s', Normal st) ->
     st !! "dependencies" = Some JsUndefined /\
     get_prop st "dependencies" = JsUndefined).
Proof.
  intros Hkey.
  assert (Hfield : forall s s' st,
    run (getHealthState now config) s = (s', Normal st) ->
    st !! "dependencies" = Some (dependenciesField (dependencyHealth s))).
  { intros s s' st Hrun.
    apply getHealthState_inv in Hrun as (customState & healthy & Hc & _ & _ & _ & _ & ->).
    rewrite spread_lookup, computedState_dependencies.
    destruct (onPing config) as [ping |].
    - by rewrite (Hkey ping (world s) customState eq_refl Hc).
    - subst customState. by rewrite lookup_empty. }
  split.
  - intros names s0 s1 s2 st Hne Hd0 Hinit Hrun.
    apply init_success in Hinit as [Hd1 _].
    unfold get_prop. rewrite (Hfield _ _ _ Hrun), Hd1, Hd0. cbn [default].
    unfold dependenciesField.
    assert (Hsize : size (markAllReady (declare names)) = size (declare names)).
    { rewrite <- !size_dom. by rewrite markAllReady_dom. }
    rewrite Hsize, declare_nonempty by done. by rewrite ready_mapping.
  - intros s s' st Hnone Hreach Hrun.
    apply reachable_registry in Hreach. rewrite Hnone in Hreach. cbn in Hreach.
    apply dom_empty_inv_L in Hreach.
    unfold get_prop. rewrite (Hfield _ _ _ Hrun), Hreach. done.
Qed.

(** ** More on initialisation *)

Lemma emitted_cases event args s :
  exists (w : W) (r : Result unit),
    emitted event args s =
    (set_world w (record (Emitted event args) s),
     match r with
     | Ok _ => Normal (match listeners event (emitter s) with
                       | [] => false
                       | _ :: _ => true
                       end)
     | Err e => Thrown e
     end).
Proof. unfold emitted. destruct (fire _ _ _) as [w r]. by exists w, r. Qed.

Lemma called_cases {A} name args (cb : Callback A) s :
  exists (w : W) (r : Result A),
    called name args cb s =
    (record (Completed name (rejection r))
            (set_world w (record (Invoked name args) s)),
     of_result r).
Proof. unfold called. destruct (cb (world s)) as [w r]. by exists w, r. Qed.

(** The effects of an [init()] that resolves. *)
Lemma init_resolves_trace config s s' :
  run (init now server_close config) s = (s', Normal tt) ->
  trace s' =
    trace s ++
    Emitted "init" [] ::
    match onInit config with
    | Some _ => [Invoked OnInit []; Completed OnInit None]
    | None => []
    end ++
    [ServerListen DEFAULT_PORT; ProcessOn "SIGTERM"; ProcessOn "SIGINT";
     Emitted "ready" []] /\
  emitter s' = emitter s.
Proof.
  rewrite run_init.
  destruct (init_try server_close config s) as [s1 [[] | error | c]] eqn:Htry;
    [| intros H; by apply init_catch_not_normal in H | discriminate].
  intros [= <-]. revert Htry. unfold init_try.
  destruct (emitted_cases "init" [] s) as (w1 & r1 & ->).
  destruct r1 as [[] | e1]; cbn [and_then]; [| discriminate].
  destruct (onInit config) as [cb |].
  - match goal with |- context [called OnInit [] cb ?x] =>
      destruct (called_cases OnInit [] cb x) as (w2 & r2 & ->) end.
    destruct r2 as [[] | e2]; cbn [of_result rejection and_then]; [| discriminate].
    match goal with |- context [emitted "ready" [] ?x] =>
      destruct (emitted_cases "ready" [] x) as (w3 & r3 & ->) end.
    destruct r3 as [[] | e3]; cbn [and_then]; [| discriminate].
    intros [= <-]. fields. rewrite <- !app_assoc. done.
  - cbn [and_then].
    match goal with |- context [emitted "ready" [] ?x] =>
      destruct (emitted_cases "ready" [] x) as (w3 & r3 & ->) end.
    destruct r3 as [[] | e3]; cbn [and_then]; [| discriminate].
    intros [= <-]. fields. rewrite <- !app_assoc. done.
Qed.

(** X1.  When [init()] resolves, it has emitted [init], awaited [onInit],
    started the health server on port 3000, registered the two signal
    handlers and emitted [ready], in this order and each once; [failure]
    was not emitted and [onFailure] was not called; every tracked flag is
    [true] and the handle of the server is kept. *)
Theorem init_resolves config s s' :
  run (init now server_close config) s = (s', Normal tt) ->
  exists t,
    trace s' = trace s ++ t /\
    t = Emitted "init" [] ::
        match onInit config with
        | Some _ => [Invoked OnInit []; Completed OnInit None]
        | None => []
        end ++
        [ServerListen DEFAULT_PORT; ProcessOn "SIGTERM"; ProcessOn "SIGINT";
         Emitted "ready" []] /\
    emissions "ready" t = [[]] /\
    emissions "failure" t = [] /\
    invocations OnFailure t = [] /\
    dependencyHealth s' = (fun _ => true) <$> dependencyHealth s /\
    healthCheckService s' = Some {| close := server_close; port := DEFAULT_PORT |}.
Proof.
  intros Hrun. pose proof (init_resolves_trace _ _ _ Hrun) as [Ht _].
  apply init_success in Hrun as [Hd Hh].
  eexists. split; [exact Ht |]. split; [reflexivity |].
  rewrite Hd, markAllReady_fmap. destruct (onInit config); done.
Qed.

(** X2.  [init()] has no guard against a second call: when both calls
    resolve, the second one calls [onInit] again, starts a second health
    server and registers the signal handlers a second time. *)
Theorem init_twice config s s1 s2 :
  run (init now server_close config) s = (s1, Normal tt) ->
  run (init now server_close config) s1 = (s2, Normal tt) ->
  count is_listen (trace s2) = (count is_listen (trace s) + 2)%nat /\
  count is_processOn (trace s2) = (count is_processOn (trace s) + 4)%nat /\
  emissions "ready" (trace s2) = emissions "ready" (trace s) ++ [[]; []] /\
  count (is_invoked OnInit) (trace s2) =
    (count (is_invoked OnInit) (trace s) +
     match onInit config with Some _ => 2 | None => 0 end)%nat.
Proof.
  intros H1 H2.
  apply init_resolves_trace in H1 as [Ht1 _].
  apply init_resolves_trace in H2 as [Ht2 _].
  rewrite Ht2, Ht1. rewrite !count_app, !emissions_app.
  destruct (onInit config); cbn; rewrite <- ?app_assoc; cbn; repeat split; lia.
Qed.
(** The [catch] block of [init] takes no part in the setup and always
    ends with a [throw]. *)
Lemma init_catch_cases config error s :
  exists s' e t,
    init_catch config error s = (s', Thrown e) /\
    trace s' = trace s ++ t /\
    count is_listen t = 0%nat /\
    count is_processOn t = 0%nat /\
    emissions "ready" t = [] /\
    emitter s' = emitter s /\
    dependencyHealth s' = dependencyHealth s /\
    healthCheckService s' = healthCheckService s.
Proof.
  unfold init_catch.
  destruct (emitted_cases "failure" [error] s) as (w1 & r1 & ->).
  destruct r1 as [[] | e1]; cbn [and_then].
  - destruct (onFailure config) as [g |].
    + match goal with |- context [called OnFailure [error] (g error) ?x] =>
        destruct (called_cases OnFailure [error] (g error) x) as (w2 & r2 & ->) end.
      destruct r2 as [[] | e2]; cbn [of_result rejection and_then];
        (eexists; eexists; eexists; split; [reflexivity |]; fields;
         rewrite <- !app_assoc; split; [reflexivity |]; done).
    + cbn [and_then]. eexists. eexists. eexists. split; [reflexivity |]. fields.
      split; [reflexivity |]. done.
  - eexists. eexists. eexists. split; [reflexivity |]. fields.
    split; [reflexivity |]. done.
Qed.


(** ** Invariants of the reachable states *)

Lemma and_then_fst2 {A B} (P Q : @State W -> Prop) (r : State * Completion A)
    (k : A -> State -> State * Completion B) :
  (forall s1, P s1 -> Q s1) ->
  P (fst r) -> (forall x s1, P s1 -> Q (fst (k x s1))) -> Q (fst (and_then r k)).
Proof. destruct r as [s1 [x | e | c]]; cbn; eauto. Qed.

Lemma called_service {A} name args (cb : Callback A) s :
  healthCheckService (fst (called name args cb s)) = healthCheckService s.
Proof. unfold called. destruct (cb (world s)). reflexivity. Qed.

Lemma emitted_service event args s :
  healthCheckService (fst (emitted event args s)) = healthCheckService s.
Proof. unfold emitted. destruct (fire _ _ _). reflexivity. Qed.

Lemma kept_called {A} name args (cb : Callback A) s0 s :
  kept s0 s -> kept s0 (fst (called name args cb s)).
Proof. unfold kept. rewrite called_registry, called_service. done. Qed.

Lemma kept_emitted event args s0 s :
  kept s0 s -> kept s0 (fst (emitted event args s)).
Proof. unfold kept. rewrite emitted_registry, emitted_service. done. Qed.

Lemma init_kept_or_set_up config s :
  kept_or_set_up server_close s (fst (run (init now server_close config) s)).
Proof.
  rewrite run_init.
  assert (Htry : kept_or_set_up server_close s (fst (init_try server_close config s))).
  { unfold init_try.
    apply (and_then_fst2 (kept s) (kept_or_set_up server_close s)); [by left | |].
    { apply kept_emitted. done. }
    intros _ s1 H1.
    apply (and_then_fst2 (kept s) (kept_or_set_up server_close s)); [by left | |].
    { destruct (onInit config); [by apply kept_called | exact H1]. }
    intros _ s2 [Hd2 Hh2].
    apply (and_then_fst (kept_or_set_up server_close s)).
    { right. rewrite emitted_registry, emitted_service. fields. by rewrite Hd2. }
    intros _ s3 H3. exact H3. }
  destruct (init_try server_close config s) as [s1 [[] | error | c]]; try exact Htry.
  cbn [fst] in Htry.
  destruct (init_catch_cases config error s1) as (s' & e & t & -> & _ & _ & _ & _ & _ & Hd & Hh).
  cbn [fst]. unfold kept_or_set_up in *. rewrite Hd, Hh. exact Htry.
Qed.
Lemma called_emitter {A} name args (cb : Callback A) s :
  emitter (fst (called name args cb s)) = emitter s.
Proof. unfold called. destruct (cb (world s)). reflexivity. Qed.

(** The effects of a health query, whatever its outcome. *)
Lemma getHealthState_cases config s :
  exists s' c t,
    run (getHealthState now config) s = (s', c) /\
    (forall code, c <> Exit code) /\
    trace s' = trace s ++ t /\
    emitter s' = emitter s /\
    dependencyHealth s' = dependencyHealth s /\
    healthCheckService s' = healthCheckService s /\
    invocations OnPing t =
      match onPing config with Some _ => [[]] | None => [] end /\
    (length (invocations IsHealthy t) <= 1)%nat /\
    (forall event, emissions event t = []) /\
    count is_exit t = 0%nat /\
    count is_writeHead t = 0%nat /\
    count is_end t = 0%nat /\
    count is_listen t = 0%nat /\
    count (is_invoked ServerClose) t = 0%nat /\
    count (is_invoked OnShutdown) t = 0%nat.
Proof.
  rewrite run_getHealthState.
  destruct (onPing config) as [ping |].
  - destruct (called_cases OnPing [] ping s) as (w1 & r1 & ->).
    destruct r1 as [customState | e1]; cbn [of_result rejection and_then].
    + destruct (isHealthy config) as [isH |].
      * match goal with |- context [called IsHealthy [] isH ?x] =>
          destruct (called_cases IsHealthy [] isH x) as (w2 & r2 & ->) end.
        destruct r2 as [healthy | e2]; cbn [of_result rejection and_then];
          (eexists; eexists; eexists; split; [reflexivity |]; fields;
           rewrite <- !app_assoc; split; [done |]; split; [reflexivity |];
           cbn; repeat split; try done; lia).
      * cbn [and_then]. eexists. eexists. eexists. split; [reflexivity |]. fields.
        rewrite <- !app_assoc. split; [done |]. split; [reflexivity |].
        cbn; repeat split; try done; lia.
    + eexists. eexists. eexists. split; [reflexivity |]. fields.
      rewrite <- !app_assoc. split; [done |]. split; [reflexivity |].
      cbn; repeat split; try done; lia.
  - cbn [and_then]. destruct (isHealthy config) as [isH |].
    + destruct (called_cases IsHealthy [] isH s) as (w2 & r2 & ->).
      destruct r2 as [healthy | e2]; cbn [of_result rejection and_then];
        (eexists; eexists; eexists; split; [reflexivity |]; fields;
         rewrite <- !app_assoc; split; [done |]; split; [reflexivity |];
         cbn; repeat split; try done; lia).
    + cbn [and_then]. eexists. eexists. exists []. split; [reflexivity |].
      rewrite app_nil_r. cbn; repeat split; try done; lia.
Qed.
(** X4.  A health query calls [onPing] once, when it is configured, and
    [isHealthy] at most once, and does nothing else: it emits no event,
    writes no response, starts or closes no server, never exits the
    process, and leaves the listeners, the registry and the server handle
    as they are, whether it returns or throws. *)
Theorem getHealthState_only_queries config s :
  exists s' c t,
    run (getHealthState now config) s = (s', c) /\
    (forall code, c <> Exit code) /\
    trace s' = trace s ++ t /\
    emitter s' = emitter s /\
    dependencyHealth s' = dependencyHealth s /\
    healthCheckService s' = healthCheckService s /\
    invocations OnPing t =
      match onPing config with Some _ => [[]] | None => [] end /\
    (length (invocations IsHealthy t) <= 1)%nat /\
    (forall event, emissions event t = []) /\
    count is_exit t = 0%nat /\
    count is_writeHead t = 0%nat /\
    count is_end t = 0%nat /\
    count is_listen t = 0%nat /\
    count (is_invoked ServerClose) t = 0%nat /\
    count (is_invoked OnShutdown) t = 0%nat.
Proof. apply getHealthState_cases. Qed.

Lemma getHealthState_kept config s :
  kept s (fst (run (getHealthState now config) s)).
Proof.
  destruct (getHealthState_cases config s)
    as (s' & c & t & -> & _ & _ & _ & Hd & Hh & _). by split.
Qed.

Lemma shutdown_kept config s : kept s (fst (run (shutdown config) s)).
Proof.
  rewrite run_shutdown. unfold shutdown_run. cbv zeta.
  apply (and_then_fst (kept s)).
  { destruct (healthCheckService _); [apply kept_called |]; by split. }
  intros _ s1 H1. apply (and_then_fst (kept s)).
  { destruct (onShutdown config); [by apply kept_called | exact H1]. }
  intros _ s2 H2. apply (and_then_fst (kept s)).
  { by apply kept_emitted. }
  intros _ s3 H3. exact H3.
Qed.

Lemma handleSignal_kept config nodeSignal shutdownSignal s :
  kept s (fst (run (handleSignal (Some (fun _ => shutdown config))
                                 nodeSignal shutdownSignal) s)).
Proof.
  rewrite run_handleSignal.
  match goal with |- context [run (shutdown config) ?s0] =>
    pose proof (shutdown_kept config s0) as H;
    destruct (run (shutdown config) s0) as [s1 [[] | e | c]] end; exact H.
Qed.

Lemma request_kept config req s :
  kept s (fst (run (requestHandler
                      (Some (inl (createHealthCheckCallback now config))) req) s)).
Proof.
  unfold requestHandler.
  destruct (String.eqb (url req) "/health" && String.eqb (method req) "GET").
  - rewrite run_createHealthCheckCallback. destruct (String.eqb (url req) "/health");
      [| by split].
    pose proof (getHealthState_kept config s) as H.
    destruct (run (getHealthState now config) s) as [s1 [st | e | c]]; exact H.
  - by split.
Qed.

Lemma markAllReady_idemp (m : gmap string bool) :
  markAllReady (markAllReady m) = markAllReady m.
Proof.
  rewrite !markAllReady_fmap. apply map_eq. intros k.
  rewrite !lookup_fmap. destruct (m !! k); reflexivity.
Qed.

(** The two phases of an instance. *)
Lemma reachable_phase config s :
  reachable now server_close config s ->
  (dependencyHealth s = declare (declared config) /\
   healthCheckService s = None) \/
  (dependencyHealth s = markAllReady (declare (declared config)) /\
   healthCheckService s = Some {| close := server_close; port := DEFAULT_PORT |}).
Proof.
  assert (Hkept : forall s s', kept s s' ->
            (dependencyHealth s = declare (declared config) /\
             healthCheckService s = None) \/
            (dependencyHealth s = markAllReady (declare (declared config)) /\
             healthCheckService s =
               Some {| close := server_close; port := DEFAULT_PORT |}) ->
            (dependencyHealth s' = declare (declared config) /\
             healthCheckService s' = None) \/
            (dependencyHealth s' = markAllReady (declare (declared config)) /\
             healthCheckService s' =
               Some {| close := server_close; port := DEFAULT_PORT |})).
  { intros s0 s' [-> ->]. done. }
  induction 1 as [w s Hdef | | | s Hr IH | s Hr IH | req s Hr IH | s Hr IH
                 | nodeSignal shutdownSignal s Hr IH]; try exact IHreachable.
  - left. unfold defineLifecycle in Hdef. injection Hdef as <-. cbn. unfold declared.
    destruct (dependencies config); done.
  - destruct (init_kept_or_set_up config s) as [Hk | [Hd Hh]].
    + by apply (Hkept s).
    + right. rewrite Hd, Hh. split; [| done].
      destruct IH as [[-> _] | [-> _]]; [done | apply markAllReady_idemp].
  - apply (Hkept s); [apply getHealthState_kept | exact IH].
  - apply (Hkept s); [apply request_kept | exact IH].
  - apply (Hkept s); [apply shutdown_kept | exact IH].
  - apply (Hkept s); [apply handleSignal_kept | exact IH].
Qed.

(** X5.  In every reachable state either every declared flag is [false]
    and no health server has been started, or every declared flag is
    [true] and the server handle is the one started on port 3000: the
    flags never differ from one another, only declared names are tracked,
    and a started server never goes with a [false] flag. *)
Theorem reachable_flags_uniform config s :
  reachable now server_close config s ->
  exists b : bool,
    (forall k, dependencyHealth s !! k =
               if decide (k ∈ declared config) then Some b else None) /\
    healthCheckService s =
      if b then Some {| close := server_close; port := DEFAULT_PORT |} else None.
Proof.
  intros [[Hd Hh] | [Hd Hh]]%reachable_phase.
  - exists false. split; [| exact Hh]. intros k. by rewrite Hd, declare_lookup.
  - exists true. split; [| exact Hh]. intros k.
    rewrite Hd, markAllReady_lookup, declare_lookup.
    destruct (decide (k ∈ declared config)); reflexivity.
Qed.

(** X6.  Once the health server has been started, the default health
    (no [isHealthy], no [healthy] key from [onPing]) is [true] in every
    reachable state: the endpoint never reports a dependency as not
    ready. *)
Theorem served_default_health_is_true config s svc s' st :
  reachable now server_close config s ->
  healthCheckService s = Some svc ->
  isHealthy config = None ->
  (forall ping customState,
     onPing config = Some ping -> snd (ping (world s)) = Ok customState ->
     customState !! "healthy" = None) ->
  run (getHealthState now config) s = (s', Normal st) ->
  get_prop st "healthy" = JsBool true /\
  forall k, k ∈ declared config -> dependencyHealth s !! k = Some true.
Proof.
  intros Hreach Hsvc HisH Hkey Hrun.
  apply reachable_phase in Hreach as [[_ Hh] | [Hd _]]; [congruence |].
  assert (Hall : allReady (dependencyHealth s) = true).
  { apply allReady_spec. intros k b. rewrite Hd. apply markAllReady_true. }
  split.
  - apply getHealthState_inv in Hrun
      as (customState & healthy & Hc & Hq & _ & _ & _ & ->).
    rewrite HisH in Hq. subst healthy. rewrite Hall.
    unfold get_prop. rewrite spread_lookup, computedState_healthy.
    destruct (onPing config) as [ping |].
    + by rewrite (Hkey ping customState eq_refl Hc).
    + subst customState. by rewrite lookup_empty.
  - intros k Hk. rewrite Hd, markAllReady_lookup, declare_lookup, decide_True; done.
Qed.
(** ** More on the health snapshot *)

(** X7.  The keys of a snapshot are [healthy], [timestamp],
    [dependencies] and the keys returned by [onPing], nothing else, and
    every key returned by [onPing] carries the value [onPing] gave it. *)
Theorem getHealthState_keys config s s' st :
  run (getHealthState now config) s = (s', Normal st) ->
  exists customState : gmap string JsValue,
    match onPing config with
    | Some ping => snd (ping (world s)) = Ok customState
    | None => customState = ∅
    end /\
    dom st = dom customState ∪ {["healthy"; "timestamp"; "dependencies"]} /\
    forall k v, customState !! k = Some v -> st !! k = Some v.
Proof.
  intros Hrun.
  apply getHealthState_inv in Hrun
    as (customState & healthy & Hc & _ & _ & _ & _ & ->).
  exists customState. split; [exact Hc |]. split.
  - unfold spread, computedState. rewrite dom_union_L, !dom_insert_L, dom_empty_L.
    set_solver.
  - intros k v Hk. by rewrite spread_lookup, Hk.
Qed.

(** X8.  Without [isHealthy] (and without a [healthy] key from [onPing])
    the snapshot is healthy exactly when every tracked flag is [true]; in
    particular it is healthy when nothing is tracked. *)
Theorem default_health_is_all_ready config s s' st :
  isHealthy config = None ->
  (forall ping customState,
     onPing config = Some ping -> snd (ping (world s)) = Ok customState ->
     customState !! "healthy" = None) ->
  run (getHealthState now config) s = (s', Normal st) ->
  (exists b, get_prop st "healthy" = JsBool b) /\
  (get_prop st "healthy" = JsBool true <->
   forall k b, dependencyHealth s !! k = Some b -> b = true) /\
  (dependencyHealth s = ∅ -> get_prop st "healthy" = JsBool true).
Proof.
  intros HisH Hkey Hrun.
  apply getHealthState_inv in Hrun
    as (customState & healthy & Hc & Hq & _ & _ & _ & ->).
  rewrite HisH in Hq. subst healthy.
  assert (Hh : get_prop (spread (computedState (allReady (dependencyHealth s))
                                   (now (world s')) (dependencyHealth s))
                                customState) "healthy" =
               JsBool (allReady (dependencyHealth s))).
  { unfold get_prop. rewrite spread_lookup, computedState_healthy.
    destruct (onPing config) as [ping |].
    - by rewrite (Hkey ping customState eq_refl Hc).
    - subst customState. by rewrite lookup_empty. }
  rewrite Hh. split; [eauto |]. split.
  - rewrite <- allReady_spec. split; [by intros [= ->] | by intros ->].
  - intros ->. reflexivity.
Qed.

Lemma not_ready_mapping names :
  JsBool <$> declare names = gset_to_gmap (JsBool false) (list_to_set names).
Proof.
  apply map_eq. intros k.
  rewrite lookup_fmap, declare_lookup, lookup_gset_to_gmap.
  destruct (decide (k ∈ names)) as [Hin | Hnin].
  - rewrite option_guard_True; [done |]. by apply elem_of_list_to_set.
  - rewrite option_guard_False; [done |]. by rewrite elem_of_list_to_set.
Qed.

Lemma declare_not_ready names : names <> [] -> allReady (declare names) = false.
Proof.
  intros Hne. destruct (allReady (declare names)) eqn:Hall; [| done].
  destruct names as [| n names]; [done |].
  rewrite allReady_spec in Hall.
  assert (declare (n :: names) !! n = Some false) as Hn.
  { rewrite declare_lookup, decide_True; [done | by left]. }
  by apply Hall in Hn.
Qed.

(** X9.  Before [init()] (the registry is as declared, on a non-empty
    name sequence) a snapshot without [isHealthy] says [healthy: false]
    and maps every declared name to [false], unless [onPing] supplies
    these keys. *)
Theorem snapshot_before_init config names s s' st :
  names <> [] ->
  dependencyHealth s = declare names ->
  isHealthy config = None ->
  (forall ping customState,
     onPing config = Some ping -> snd (ping (world s)) = Ok customState ->
     customState !! "healthy" = None /\ customState !! "dependencies" = None) ->
  run (getHealthState now config) s = (s', Normal st) ->
  get_prop st "healthy" = JsBool false /\
  get_prop st "dependencies" =
    JsObject (gset_to_gmap (JsBool false) (list_to_set names)).
Proof.
  intros Hne Hd HisH Hkey Hrun.
  apply getHealthState_inv in Hrun
    as (customState & healthy & Hc & Hq & _ & _ & _ & ->).
  rewrite HisH in Hq. subst healthy.
  assert (Hnone : customState !! "healthy" = None /\
                  customState !! "dependencies" = None).
  { destruct (onPing config) as [ping |].
    - exact (Hkey ping customState eq_refl Hc).
    - subst customState. by rewrite !lookup_empty. }
  destruct Hnone as [H1 H2].
  unfold get_prop.
  rewrite !spread_lookup, H1, H2, computedState_healthy, computedState_dependencies.
  cbn [default]. rewrite Hd, declare_not_ready by done. split; [reflexivity |].
  unfold dependenciesField. rewrite declare_nonempty by done.
  by rewrite not_ready_mapping.
Qed.

(** ** More on the health endpoint *)

(** X11.  For [GET /health], when the health computation returns a
    snapshot, the endpoint answers with that snapshot as JSON body, with
    status 200 when its [healthy] field is truthy and 503 otherwise. *)
Theorem health_endpoint_reports config req s s1 st :
  url req = "/health" ->
  method req = "GET" ->
  run (getHealthState now config) s = (s1, Normal st) ->
  run (requestHandler (Some (inl (createHealthCheckCallback now config))) req) s =
  (record (End_ (Some (JsObject st)))
     (record (WriteHead (if truthy (get_prop st "healthy") then 200%Z else 503%Z)
                        (Some "application/json")) s1),
   Normal tt).
Proof.
  intros Hurl Hmethod Hrun. unfold requestHandler. rewrite Hurl, Hmethod.
  cbn [String.eqb Ascii.eqb Bool.eqb andb].
  rewrite run_createHealthCheckCallback, Hurl, Hrun. reflexivity.
Qed.

(** X12.  Every request to the health endpoint of the lifecycle is
    answered exactly once: one [writeHead] directly followed by one
    [end], which are the last effects of the handler, with status 200,
    503 or 404. *)
Theorem every_request_answered_once config req s :
  exists s' t0 status contentType body,
    run (requestHandler (Some (inl (createHealthCheckCallback now config))) req) s =
    (s', Normal tt) /\
    trace s' = trace s ++ t0 ++ [WriteHead status contentType; End_ body] /\
    count is_writeHead t0 = 0%nat /\
    count is_end t0 = 0%nat /\
    (status = 200%Z \/ status = 503%Z \/ status = 404%Z).
Proof.
  assert (H404 : exists s' t0 status contentType body,
    (record (End_ None) (record (WriteHead 404%Z None) s), Normal tt) =
    (s', @Normal unit tt) /\
    trace s' = trace s ++ t0 ++ [WriteHead status contentType; End_ body] /\
    count is_writeHead t0 = 0%nat /\ count is_end t0 = 0%nat /\
    (status = 200%Z \/ status = 503%Z \/ status = 404%Z)).
  { eexists. exists []. eexists. eexists. eexists. split; [reflexivity |]. fields.
    rewrite <- !app_assoc. split; [reflexivity |]. auto. }
  unfold requestHandler.
  destruct (String.eqb (url req) "/health" && String.eqb (method req) "GET").
  - rewrite run_createHealthCheckCallback.
    destruct (String.eqb (url req) "/health"); [| exact H404].
    destruct (getHealthState_cases config s)
      as (s1 & c & t & -> & Hexit & Ht & _ & _ & _ & _ & _ & _ & _ & Hw & He & _).
    destruct c as [st | err | code]; [| | by destruct (Hexit code)].
    + eexists. exists t. eexists. eexists. eexists. split; [reflexivity |]. fields.
      rewrite Ht, <- !app_assoc. split; [reflexivity |].
      destruct (truthy _); auto.
    + eexists. exists (t ++ [LogError [("err", err)] "Error getting health state"]).
      eexists. eexists. eexists. split; [reflexivity |]. fields.
      rewrite Ht, <- !app_assoc. split; [reflexivity |].
      rewrite !count_app, Hw, He. auto.
  - unfold notFound. rewrite run_bind, run_effect. cbn [and_then].
    rewrite run_effect. exact H404.
Qed.

(** X13.  The server of [startHealthCheckServer] routes by exact match:
    a request whose URL is not ["/health"] or whose method is not ["GET"]
    is answered 404 with an empty body, and the callback is not called,
    whatever callback was given. *)
Theorem requestHandler_not_found (onPing : option (@OnPingCallback W + Z)) req s :
  url req <> "/health" \/ method req <> "GET" ->
  run (requestHandler onPing req) s =
  (record (End_ None) (record (WriteHead 404%Z None) s), Normal tt).
Proof.
  intros Hne. unfold requestHandler.
  assert (String.eqb (url req) "/health" && String.eqb (method req) "GET" = false) as ->.
  { apply andb_false_iff. destruct Hne as [H | H]; [left | right];
      by apply String.eqb_neq. }
  unfold notFound. rewrite run_bind, run_effect. cbn [and_then].
  by rewrite run_effect.
Qed.

(** When the first argument of [startHealthCheckServer] is a
    number, the server listens on that number, whatever the second
    argument is, and answers [GET /health] with the generic 200 response
    [{ status: 'Ok' }], as it does when no callback is given. *)
Theorem startHealthCheckServer_number_first (n : Z) (port : option Z) req s :
  url req = "/health" ->
  method req = "GET" ->
  run (startHealthCheckServer server_close (Some (inr n)) port) s =
    (record (ServerListen n) s, Normal {| close := server_close; port := n |}) /\
  run (requestHandler (Some (inr n)) req) s =
    (record (End_ (Some (JsObject {[ "status" := JsString "Ok" ]})))
       (record (WriteHead 200%Z (Some "application/json")) s),
     Normal tt) /\
  run (requestHandler (W := W) None req) s =
    run (requestHandler (Some (inr n)) req) s.
Proof.
  intros Hurl Hmethod. split; [| split].
  - unfold startHealthCheckServer. rewrite run_bind, run_effect. reflexivity.
  - unfold requestHandler. rewrite Hurl, Hmethod.
    cbn [String.eqb Ascii.eqb Bool.eqb andb].
    rewrite run_bind, run_effect. cbn [and_then]. by rewrite run_effect.
  - reflexivity.
Qed.
(** ** More on shutdown *)

(** X14.  The signal handler of [setupShutdownHandlers] never returns and
    never throws, whatever callback it was given: without callback it
    logs the signal and exits with 0; an error thrown by the callback is
    logged and the handler exits with 0; a callback that completes is
    followed by the exit with 0; only a callback that exits the process
    itself decides the exit code. *)
Theorem handleSignal_always_exits (onShutdown : option (@OnShutdownCallback W))
    nodeSignal shutdownSignal s :
  let s0 := record (LogInfo [("signal", JsString nodeSignal)]
                            "Signal received, initiating graceful shutdown") s in
  run (handleSignal onShutdown nodeSignal shutdownSignal) s =
    match onShutdown with
    | None => (record (ProcessExit 0) s0, Exit 0)
    | Some f =>
        match run (f shutdownSignal) s0 with
        | (s1, Normal _) => (record (ProcessExit 0) s1, Exit 0)
        | (s1, Thrown error) =>
            (record (ProcessExit 0)
               (record (LogError [("error", error); ("signal", JsString nodeSignal)]
                                 "Error during shutdown") s1),
             Exit 0)
        | (s1, Exit code) => (s1, Exit code)
        end
    end /\
  exists s' code,
    run (handleSignal onShutdown nodeSignal shutdownSignal) s = (s', Exit code).
Proof.
  intros s0.
  assert (Heq : run (handleSignal onShutdown nodeSignal shutdownSignal) s =
    match onShutdown with
    | None => (record (ProcessExit 0) s0, Exit 0)
    | Some f =>
        match run (f shutdownSignal) s0 with
        | (s1, Normal _) => (record (ProcessExit 0) s1, Exit 0)
        | (s1, Thrown error) =>
            (record (ProcessExit 0)
               (record (LogError [("error", error); ("signal", JsString nodeSignal)]
                                 "Error during shutdown") s1),
             Exit 0)
        | (s1, Exit code) => (s1, Exit code)
        end
    end).
  { unfold handleSignal. rewrite run_bind, run_effect. cbn [and_then]. fold s0.
    rewrite run_bind, run_try_catch. destruct onShutdown as [f |].
    - rewrite run_await_task.
      destruct (run (f shutdownSignal) s0) as [s1 [[] | error | code]]; cbn [and_then].
      + apply run_process_exit.
      + rewrite run_effect. cbn [and_then]. apply run_process_exit.
      + reflexivity.
    - rewrite run_ret. cbn [and_then]. apply run_process_exit. }
  split; [exact Heq |]. rewrite Heq. destruct onShutdown as [f |]; [| eauto].
  destruct (run (f shutdownSignal) s0) as [s1 [[] | error | code]]; eauto.
Qed.

(** X15.  When the close of the health server raises, [shutdown()] stops
    there: [onShutdown] is not called, [done] is not emitted, and the
    error of close is thrown to the caller. *)
Theorem shutdown_close_failure_skips_cleanup config s svc e :
  healthCheckService s = Some svc ->
  rejects (close svc) e ->
  exists s',
    run (shutdown config) s = (s', Thrown e) /\
    trace s' = trace s ++ [LogInfo [] "Initiating graceful shutdown...";
                           Invoked ServerClose [];
                           Completed ServerClose (Some e)] /\
    invocations OnShutdown (trace s') = invocations OnShutdown (trace s) /\
    emissions "done" (trace s') = emissions "done" (trace s).
Proof.
  intros Hsvc Hrej. rewrite run_shutdown. unfold shutdown_run. cbv zeta. fields.
  rewrite Hsvc.
  match goal with |- context [called _ _ _ ?x] =>
    destruct (called_rejects ServerClose [] (close svc) e x Hrej) as (w & ->) end.
  cbn [and_then]. eexists. split; [reflexivity |]. fields.
  rewrite <- !app_assoc. split; [reflexivity |].
  rewrite invocations_app, emissions_app. cbn. by rewrite !app_nil_r.
Qed.


(** ** Listeners *)

Lemma listeners_on_same event (listener : @Listener W) s :
  listeners event (emitter (on event listener s)) =
  listeners event (emitter s) ++ [listener].
Proof.
  unfold listeners, on. fields. rewrite List.filter_app, fmap_app. cbn.
  by rewrite String.eqb_refl.
Qed.

Lemma listeners_on_other event event' (listener : @Listener W) s :
  event' <> event ->
  listeners event' (emitter (on event listener s)) = listeners event' (emitter s).
Proof.
  intros Hne. unfold listeners, on. fields. rewrite List.filter_app, fmap_app. cbn.
  assert (String.eqb event event' = false) as ->.
  { apply String.eqb_neq. congruence. }
  cbn. by rewrite app_nil_r.
Qed.

Lemma fire_snoc (ls : list (@Listener W)) listener args w :
  fire (ls ++ [listener]) args w =
  match fire ls args w with
  | (w1, Ok _) =>
      match listener args w1 with
      | (w2, Ok _) => (w2, Ok tt)
      | (w2, Err e) => (w2, Err e)
      end
  | (w1, Err e) => (w1, Err e)
  end.
Proof.
  revert w. induction ls as [| l rest IH]; intros w; cbn.
  - destruct (listener args w) as [w2 [[] | e]]; reflexivity.
  - destruct (l args w) as [w1 [[] | e]]; [apply IH | reflexivity].
Qed.


(** X18.  [shutdown()] never resets a flag and never clears the server
    handle: whatever its outcome, the registry and the handle are as they
    were before the call. *)
Theorem shutdown_keeps_instance config s :
  dependencyHealth (fst (run (shutdown config) s)) = dependencyHealth s /\
  healthCheckService (fst (run (shutdown config) s)) = healthCheckService s /\
  emitter (fst (run (shutdown config) s)) = emitter s.
Proof.
  destruct (shutdown_kept config s) as [Hd Hh]. split; [exact Hd |].
  split; [exact Hh |]. clear Hd Hh.
  rewrite run_shutdown. unfold shutdown_run. cbv zeta.
  apply (and_then_fst (fun s' => emitter s' = emitter s)).
  { cbv beta. destruct (healthCheckService _); [by rewrite called_emitter | reflexivity]. }
  intros _ s1 H1. apply (and_then_fst (fun s' => emitter s' = emitter s)).
  { cbv beta in *. destruct (onShutdown config); [by rewrite called_emitter | exact H1]. }
  intros _ s2 H2. apply (and_then_fst (fun s' => emitter s' = emitter s)).
  { destruct (emitted_cases "done" [] s2) as (w & r & ->). exact H2. }
  intros _ s3 H3. exact H3.
Qed.

(** ** Runs pinned by the outcomes of the callbacks *)

Lemma state_eq (s1 s2 : @State W) :
  world s1 = world s2 -> emitter s1 = emitter s2 ->
  dependencyHealth s1 = dependencyHealth s2 ->
  healthCheckService s1 = healthCheckService s2 ->
  trace s1 = trace s2 -> s1 = s2.
Proof. destruct s1, s2. cbn. by intros -> -> -> -> ->. Qed.

(** C2, as amended.  [shutdown()] logs, calls close when a server was
    started, then [onShutdown] when configured, then emits [done], then
    exits with status 0, each step once and only when the step before it
    completed normally: [done] is emitted exactly once and the process
    exits with 0 when close and [onShutdown] complete normally and no
    listener of [done] throws.  An error of close or of [onShutdown] is
    not caught inside [shutdown()]: the run stops at that step, the error
    is thrown to the caller, [done] is not emitted and the process is not
    exited.  On the signal path the handler of [setupShutdownHandlers]
    catches the error, logs it and exits with status 0, [done] still not
    emitted.  ([r1], [r2] and [r3] are the outcomes, in this run, of
    close, of [onShutdown] and of the listeners of [done].) *)
Theorem shutdown_error_handling config s w1 r1 w2 r2 w3 r3 :
  match healthCheckService s with
  | Some svc => close svc (world s) = (w1, r1)
  | None => (world s, Ok tt) = (w1, r1)
  end ->
  match onShutdown config with
  | Some cb => cb w1 = (w2, r2)
  | None => (w1, Ok tt) = (w2, r2)
  end ->
  fire (listeners "done" (emitter s)) [] w2 = (w3, r3) ->
  let closing :=
    match healthCheckService s with
    | Some _ => [Invoked ServerClose []; Completed ServerClose (rejection r1)]
    | None => []
    end in
  let cleanup :=
    match onShutdown config with
    | Some _ => [Invoked OnShutdown []; Completed OnShutdown (rejection r2)]
    | None => []
    end in
  let after w t :=
    mkState w (emitter s) (dependencyHealth s) (healthCheckService s)
            (trace s ++ t) in
  let begun := LogInfo [] "Initiating graceful shutdown..." in
  run (shutdown config) s =
    match r1, r2, r3 with
    | Err e, _, _ =>
        (after w1 (begun :: closing), Thrown e)
    | Ok _, Err e, _ =>
        (after w2 (begun :: closing ++ cleanup), Thrown e)
    | Ok _, Ok _, Err e =>
        (after w3 (begun :: closing ++ cleanup ++ [Emitted "done" []]), Thrown e)
    | Ok _, Ok _, Ok _ =>
        (after w3 (begun :: closing ++ cleanup ++
                   [Emitted "done" []; ProcessExit 0]), Exit 0)
    end /\
  forall nodeSignal shutdownSignal,
    let received := LogInfo [("signal", JsString nodeSignal)]
                            "Signal received, initiating graceful shutdown" in
    let caught e := [LogError [("error", e); ("signal", JsString nodeSignal)]
                              "Error during shutdown";
                     ProcessExit 0] in
    run (handleSignal (Some (fun _ => shutdown config)) nodeSignal shutdownSignal) s =
      match r1, r2, r3 with
      | Err e, _, _ =>
          (after w1 (received :: begun :: closing ++ caught e), Exit 0)
      | Ok _, Err e, _ =>
          (after w2 (received :: begun :: closing ++ cleanup ++ caught e), Exit 0)
      | Ok _, Ok _, Err e =>
          (after w3 (received :: begun :: closing ++ cleanup ++
                     Emitted "done" [] :: caught e), Exit 0)
      | Ok _, Ok _, Ok _ =>
          (after w3 (received :: begun :: closing ++ cleanup ++
                     [Emitted "done" []; ProcessExit 0]), Exit 0)
      end.
Proof.
  intros H1 H2 H3. cbv zeta.
  assert (Hrun : forall s0,
    world s0 = world s -> emitter s0 = emitter s ->
    dependencyHealth s0 = dependencyHealth s ->
    healthCheckService s0 = healthCheckService s ->
    run (shutdown config) s0 =
    match r1, r2, r3 with
    | Err e, _, _ =>
        (mkState w1 (emitter s) (dependencyHealth s) (healthCheckService s)
           (trace s0 ++ LogInfo [] "Initiating graceful shutdown..." ::
              match healthCheckService s with
              | Some _ => [Invoked ServerClose []; Completed ServerClose (rejection r1)]
              | None => []
              end), Thrown e)
    | Ok _, Err e, _ =>
        (mkState w2 (emitter s) (dependencyHealth s) (healthCheckService s)
           (trace s0 ++ LogInfo [] "Initiating graceful shutdown..." ::
              match healthCheckService s with
              | Some _ => [Invoked ServerClose []; Completed ServerClose (rejection r1)]
              | None => []
              end ++
              match onShutdown config with
              | Some _ => [Invoked OnShutdown []; Completed OnShutdown (rejection r2)]
              | None => []
              end), Thrown e)
    | Ok _, Ok _, Err e =>
        (mkState w3 (emitter s) (dependencyHealth s) (healthCheckService s)
           (trace s0 ++ LogInfo [] "Initiating graceful shutdown..." ::
              match healthCheckService s with
              | Some _ => [Invoked ServerClose []; Completed ServerClose (rejection r1)]
              | None => []
              end ++
              match onShutdown config with
              | Some _ => [Invoked OnShutdown []; Completed OnShutdown (rejection r2)]
              | None => []
              end ++ [Emitted "done" []]), Thrown e)
    | Ok _, Ok _, Ok _ =>
        (mkState w3 (emitter s) (dependencyHealth s) (healthCheckService s)
           (trace s0 ++ LogInfo [] "Initiating graceful shutdown..." ::
              match healthCheckService s with
              | Some _ => [Invoked ServerClose []; Completed ServerClose (rejection r1)]
              | None => []
              end ++
              match onShutdown config with
              | Some _ => [Invoked OnShutdown []; Completed OnShutdown (rejection r2)]
              | None => []
              end ++ [Emitted "done" []; ProcessExit 0]), Exit 0)
    end).
  { intros s0 Hw He Hd Hh. rewrite run_shutdown. unfold shutdown_run. cbv zeta. fields.
    rewrite Hh. unfold called, emitted. fields. rewrite ?Hw, ?He.
    destruct (healthCheckService s) as [svc |].
    - rewrite H1. destruct r1 as [[] | e1]; cbn [of_result rejection and_then].
      + destruct (onShutdown config) as [cb |].
        * fields. rewrite H2. destruct r2 as [[] | e2]; cbn [of_result rejection and_then].
          -- fields. rewrite ?He, H3. destruct r3 as [[] | e3]; cbn [and_then];
               (f_equal; apply state_eq; fields; rewrite <- ?app_assoc; cbn; congruence).
          -- f_equal. apply state_eq; fields; rewrite <- ?app_assoc; cbn; congruence.
        * injection H2 as <- <-. cbn [and_then]. fields. rewrite ?He, H3.
          destruct r3 as [[] | e3]; cbn [and_then];
            (f_equal; apply state_eq; fields; rewrite <- ?app_assoc; cbn; congruence).
      + f_equal. apply state_eq; fields; rewrite <- ?app_assoc; cbn; congruence.
    - injection H1 as <- <-. cbn [and_then].
      destruct (onShutdown config) as [cb |].
      + fields. rewrite ?Hw, H2. destruct r2 as [[] | e2]; cbn [of_result rejection and_then].
        * fields. rewrite ?He, H3. destruct r3 as [[] | e3]; cbn [and_then];
            (f_equal; apply state_eq; fields; rewrite <- ?app_assoc; cbn; congruence).
        * f_equal. apply state_eq; fields; rewrite <- ?app_assoc; cbn; congruence.
      + injection H2 as <- <-. cbn [and_then]. fields. rewrite ?He, ?Hw, H3.
        destruct r3 as [[] | e3]; cbn [and_then];
          (f_equal; apply state_eq; fields; rewrite <- ?app_assoc; cbn; congruence). }
  split.
  - rewrite (Hrun s) by reflexivity. destruct r1 as [[] | ?], r2 as [[] | ?], r3 as [[] | ?];
      reflexivity.
  - intros nodeSignal shutdownSignal. rewrite run_handleSignal, Hrun by reflexivity.
    destruct r1 as [[] | ?], r2 as [[] | ?], r3 as [[] | ?];
      (f_equal; apply state_eq; fields; rewrite <- ?app_assoc; cbn;
       rewrite <- ?app_assoc; reflexivity).
Qed.
Lemma emitted_at event args s w r :
  fire (listeners event (emitter s)) args (world s) = (w, r) ->
  emitted event args s =
  (set_world w (record (Emitted event args) s),
   match r with
   | Ok _ => Normal (match listeners event (emitter s) with
                     | [] => false
                     | _ :: _ => true
                     end)
   | Err e => Thrown e
   end).
Proof. intros H. unfold emitted. cbv zeta. by rewrite H. Qed.

Lemma called_at {A} name args (cb : Callback A) s w r :
  cb (world s) = (w, r) ->
  called name args cb s =
  (record (Completed name (rejection r))
          (set_world w (record (Invoked name args) s)),
   of_result r).
Proof. intros H. unfold called. by rewrite H. Qed.

(** The [catch] block of [init], from the outcome of the listeners of
    [failure] and of [onFailure]. *)
Lemma init_catch_at config error s w1 r1 w2 r2 :
  fire (listeners "failure" (emitter s)) [error] (world s) = (w1, r1) ->
  match onFailure config with
  | Some g => g error w1 = (w2, r2)
  | None => (w1, Ok tt) = (w2, r2)
  end ->
  init_catch config error s =
  match r1, r2 with
  | Err e, _ =>
      (mkState w1 (emitter s) (dependencyHealth s) (healthCheckService s)
               (trace s ++ [Emitted "failure" [error]]),
       Thrown e)
  | Ok _, r2 =>
      (mkState w2 (emitter s) (dependencyHealth s) (healthCheckService s)
               (trace s ++ Emitted "failure" [error] ::
                  match onFailure config with
                  | Some _ => [Invoked OnFailure [error];
                               Completed OnFailure (rejection r2)]
                  | None => []
                  end),
       match r2 with
       | Ok _ => Thrown error
       | Err e => Thrown e
       end)
  end.
Proof.
  intros H1 H2. unfold init_catch. rewrite (emitted_at _ _ _ _ _ H1).
  destruct r1 as [[] | e1]; cbn [and_then]; [| reflexivity].
  destruct (onFailure config) as [g |].
  - erewrite called_at; [| fields; exact H2].
    destruct r2 as [[] | e2]; cbn [of_result rejection and_then];
      (f_equal; apply state_eq; fields; rewrite <- ?app_assoc; reflexivity).
  - injection H2 as <- <-. cbn [and_then]. f_equal.
Qed.

(** A run of [init()] in which [onInit] is called and raises. *)
Lemma run_init_rejected config s f E w1 w2 w3 r3 w4 r4 :
  onInit config = Some f ->
  fire (listeners "init" (emitter s)) [] (world s) = (w1, Ok tt) ->
  f w1 = (w2, Err E) ->
  fire (listeners "failure" (emitter s)) [E] w2 = (w3, r3) ->
  match onFailure config with
  | Some g => g E w3 = (w4, r4)
  | None => (w3, Ok tt) = (w4, r4)
  end ->
  let reported :=
    [Emitted "init" []; Invoked OnInit []; Completed OnInit (Some E);
     Emitted "failure" [E]] in
  let handled :=
    match onFailure config with
    | Some _ => [Invoked OnFailure [E]; Completed OnFailure (rejection r4)]
    | None => []
    end in
  let after w t :=
    mkState w (emitter s) (dependencyHealth s) (healthCheckService s)
            (trace s ++ t) in
  run (init now server_close config) s =
    match r3, r4 with
    | Err e, _ => (after w3 reported, Thrown e)
    | Ok _, Ok _ => (after w4 (reported ++ handled), Thrown E)
    | Ok _, Err e => (after w4 (reported ++ handled), Thrown e)
    end.
Proof.
  intros Hf H1 H2 H3 H4. cbv zeta. rewrite run_init. unfold init_try.
  rewrite (emitted_at _ _ _ _ _ H1). cbn [and_then]. rewrite Hf.
  erewrite called_at; [| fields; exact H2]. cbn [of_result rejection and_then].
  erewrite init_catch_at; [| fields; exact H3 | exact H4]. fields.
  destruct r3 as [[] | e3]; [destruct r4 as [[] | e4] |];
    (f_equal; apply state_eq; fields; rewrite <- ?app_assoc; reflexivity).
Qed.

(** C5, as amended.  In a run of [init()] in which [onInit] is called (no
    listener of [init] throws) and raises [E]: [init()] calls [onInit]
    once, emits one [failure] event carrying exactly [E], starts no
    server and leaves the registry as it was, every declared flag still
    [false].  When a listener of [failure] throws, [init()] rejects with
    that exception and [onFailure] is not called.  Otherwise the
    configured [onFailure] is invoked exactly once, with [E], and
    [init()] re-raises [E] when [onFailure] completes normally and rejects
    with the error of [onFailure] when it raises.  ([r3] and [r4] are the
    outcomes, in this run, of the listeners of [failure] and of
    [onFailure].) *)
Theorem init_failure config s f E names w1 w2 w3 r3 w4 r4 :
  onInit config = Some f ->
  fire (listeners "init" (emitter s)) [] (world s) = (w1, Ok tt) ->
  f w1 = (w2, Err E) ->
  fire (listeners "failure" (emitter s)) [E] w2 = (w3, r3) ->
  match onFailure config with
  | Some g => g E w3 = (w4, r4)
  | None => (w3, Ok tt) = (w4, r4)
  end ->
  dependencyHealth s = declare names ->
  let reported :=
    [Emitted "init" []; Invoked OnInit []; Completed OnInit (Some E);
     Emitted "failure" [E]] in
  let handled :=
    match onFailure config with
    | Some _ => [Invoked OnFailure [E]; Completed OnFailure (rejection r4)]
    | None => []
    end in
  let after w t :=
    mkState w (emitter s) (dependencyHealth s) (healthCheckService s)
            (trace s ++ t) in
  run (init now server_close config) s =
    match r3, r4 with
    | Err e, _ => (after w3 reported, Thrown e)
    | Ok _, Ok _ => (after w4 (reported ++ handled), Thrown E)
    | Ok _, Err e => (after w4 (reported ++ handled), Thrown e)
    end /\
  forall k, k ∈ names ->
    dependencyHealth (fst (run (init now server_close config) s)) !! k = Some false.
Proof.
  intros Hf H1 H2 H3 H4 Hd. cbv zeta.
  pose proof (run_init_rejected config s f E w1 w2 w3 r3 w4 r4 Hf H1 H2 H3 H4) as Hrun.
  cbv zeta in Hrun. split; [exact Hrun |].
  intros k Hk. rewrite Hrun.
  assert (Hlook : declare names !! k = Some false).
  { rewrite declare_lookup, decide_True; done. }
  destruct r3 as [[] | e3]; [destruct r4 as [[] | e4] |]; cbn; by rewrite Hd.
Qed.

(** X3.  In a run of [init()] in which [onInit] is called and raises [E],
    [init()] rejects and its effects are exactly: the [init] emission, the
    one call of [onInit] and its rejection, the [failure] emission with
    [E] and at most one call of [onFailure].  It starts no health server,
    registers no signal handler, does not emit [ready], and leaves the
    registry and the server handle as they were, whatever the listeners
    of [failure] and [onFailure] do. *)
Theorem init_rejected_before_setup config s f E w1 w2 :
  onInit config = Some f ->
  fire (listeners "init" (emitter s)) [] (world s) = (w1, Ok tt) ->
  f w1 = (w2, Err E) ->
  exists s' e t handled,
    run (init now server_close config) s = (s', Thrown e) /\
    trace s' = trace s ++ t /\
    t = [Emitted "init" []; Invoked OnInit []; Completed OnInit (Some E);
         Emitted "failure" [E]] ++ handled /\
    (handled = [] \/
     exists rejected, handled = [Invoked OnFailure [E]; Completed OnFailure rejected]) /\
    count is_listen t = 0%nat /\
    count is_processOn t = 0%nat /\
    emissions "ready" t = [] /\
    dependencyHealth s' = dependencyHealth s /\
    healthCheckService s' = healthCheckService s.
Proof.
  intros Hf H1 H2.
  destruct (fire (listeners "failure" (emitter s)) [E] w2) as [w3 r3] eqn:H3.
  assert (exists w4 r4, match onFailure config with
                        | Some g => g E w3 = (w4, r4)
                        | None => (w3, Ok tt) = (w4, r4)
                        end) as (w4 & r4 & H4).
  { destruct (onFailure config) as [g |]; [| by eauto].
    destruct (g E w3) as [w4 r4]. eauto. }
  pose proof (run_init_rejected config s f E w1 w2 w3 r3 w4 r4 Hf H1 H2 H3 H4) as Hrun.
  cbv zeta in Hrun. rewrite Hrun.
  destruct r3 as [[] | e3]; [destruct r4 as [[] | e4] |].
  - eexists. eexists. eexists. eexists. split; [reflexivity |]. cbn [trace].
    split; [reflexivity |]. split; [reflexivity |].
    destruct (onFailure config); cbn; eauto 10.
  - eexists. eexists. eexists. eexists. split; [reflexivity |]. cbn [trace].
    split; [reflexivity |]. split; [reflexivity |].
    destruct (onFailure config); cbn; eauto 10.
  - eexists. eexists. eexists. exists []. split; [reflexivity |]. cbn [trace].
    split; [reflexivity |]. split; [reflexivity |]. cbn. eauto 10.
Qed.

(** C10, as amended.  In a run of [init()] in which setup succeeds (no
    listener of [init] throws, [onInit] completes normally) and a listener
    of [ready] throws [E]: every flag has been set to [true], the health
    server is started and the signal handlers are registered, and
    [init()] then emits one [failure] event carrying [E].  When a listener
    of [failure] throws, [init()] rejects with that exception and
    [onFailure] is not called.  Otherwise [onFailure], when configured, is
    invoked once, with [E], and [init()] rejects with [E] when [onFailure]
    completes normally or is not configured, and with the error of
    [onFailure] when it raises.  ([r4] and [r5] are the outcomes, in this
    run, of the listeners of [failure] and of [onFailure].) *)
Theorem init_ready_listener_throws config s E w1 w2 w3 w4 r4 w5 r5 :
  fire (listeners "init" (emitter s)) [] (world s) = (w1, Ok tt) ->
  match onInit config with
  | Some f => f w1 = (w2, Ok tt)
  | None => w1 = w2
  end ->
  fire (listeners "ready" (emitter s)) [] w2 = (w3, Err E) ->
  fire (listeners "failure" (emitter s)) [E] w3 = (w4, r4) ->
  match onFailure config with
  | Some g => g E w4 = (w5, r5)
  | None => (w4, Ok tt) = (w5, r5)
  end ->
  let set_up_then_failed :=
    Emitted "init" [] ::
    match onInit config with
    | Some _ => [Invoked OnInit []; Completed OnInit None]
    | None => []
    end ++
    [ServerListen DEFAULT_PORT; ProcessOn "SIGTERM"; ProcessOn "SIGINT";
     Emitted "ready" []; Emitted "failure" [E]] in
  let handled :=
    match onFailure config with
    | Some _ => [Invoked OnFailure [E]; Completed OnFailure (rejection r5)]
    | None => []
    end in
  let after w t :=
    mkState w (emitter s) (markAllReady (dependencyHealth s))
            (Some {| close := server_close; port := DEFAULT_PORT |})
            (trace s ++ t) in
  run (init now server_close config) s =
    match r4, r5 with
    | Err e, _ => (after w4 set_up_then_failed, Thrown e)
    | Ok _, Ok _ => (after w5 (set_up_then_failed ++ handled), Thrown E)
    | Ok _, Err e => (after w5 (set_up_then_failed ++ handled), Thrown e)
    end /\
  forall k b,
    dependencyHealth (fst (run (init now server_close config) s)) !! k = Some b ->
    b = true.
Proof.
  intros H1 H2 H3 H4 H5. cbv zeta.
  assert (Hrun : run (init now server_close config) s =
    match r4, r5 with
    | Err e, _ =>
        (mkState w4 (emitter s) (markAllReady (dependencyHealth s))
           (Some {| close := server_close; port := DEFAULT_PORT |})
           (trace s ++ Emitted "init" [] ::
              match onInit config with
              | Some _ => [Invoked OnInit []; Completed OnInit None]
              | None => []
              end ++
              [ServerListen DEFAULT_PORT; ProcessOn "SIGTERM"; ProcessOn "SIGINT";
               Emitted "ready" []; Emitted "failure" [E]]), Thrown e)
    | Ok _, Ok _ =>
        (mkState w5 (emitter s) (markAllReady (dependencyHealth s))
           (Some {| close := server_close; port := DEFAULT_PORT |})
           (trace s ++ (Emitted "init" [] ::
              match onInit config with
              | Some _ => [Invoked OnInit []; Completed OnInit None]
              | None => []
              end ++
              [ServerListen DEFAULT_PORT; ProcessOn "SIGTERM"; ProcessOn "SIGINT";
               Emitted "ready" []; Emitted "failure" [E]]) ++
              match onFailure config with
              | Some _ => [Invoked OnFailure [E]; Completed OnFailure (rejection r5)]
              | None => []
              end), Thrown E)
    | Ok _, Err e =>
        (mkState w5 (emitter s) (markAllReady (dependencyHealth s))
           (Some {| close := server_close; port := DEFAULT_PORT |})
           (trace s ++ (Emitted "init" [] ::
              match onInit config with
              | Some _ => [Invoked OnInit []; Completed OnInit None]
              | None => []
              end ++
              [ServerListen DEFAULT_PORT; ProcessOn "SIGTERM"; ProcessOn "SIGINT";
               Emitted "ready" []; Emitted "failure" [E]]) ++
              match onFailure config with
              | Some _ => [Invoked OnFailure [E]; Completed OnFailure (rejection r5)]
              | None => []
              end), Thrown e)
    end).
  { rewrite run_init. unfold init_try.
    rewrite (emitted_at _ _ _ _ _ H1). cbn [and_then].
    destruct (onInit config) as [f |].
    - erewrite called_at; [| fields; exact H2]. cbn [of_result rejection and_then].
      erewrite emitted_at; [| fields; exact H3]. cbn [and_then].
      erewrite init_catch_at; [| fields; exact H4 | exact H5]. fields.
      destruct r4 as [[] | e4]; [destruct r5 as [[] | e5] |];
        (f_equal; apply state_eq; fields; rewrite <- ?app_assoc; cbn;
         rewrite <- ?app_assoc; reflexivity).
    - subst w2. cbn [and_then].
      erewrite emitted_at; [| fields; exact H3]. cbn [and_then].
      erewrite init_catch_at; [| fields; exact H4 | exact H5]. fields.
      destruct r4 as [[] | e4]; [destruct r5 as [[] | e5] |];
        (f_equal; apply state_eq; fields; rewrite <- ?app_assoc; cbn;
         rewrite <- ?app_assoc; reflexivity). }
  split; [exact Hrun |]. intros k b. rewrite Hrun.
  destruct r4 as [[] | e4]; [destruct r5 as [[] | e5] |]; cbn [fst dependencyHealth];
    apply markAllReady_true.
Qed.

(** X10.  [getHealthState()] does not catch.  When [onPing] raises [e],
    the run is that one call, [isHealthy] is not called and [e] is thrown
    to the caller; when [onPing] completes (or is not configured) and
    [isHealthy] raises [e], the run is the call of [onPing] and the one
    call of [isHealthy], and [e] is thrown to the caller. *)
Theorem getHealthState_rethrows config s e :
  (forall ping w1,
     onPing config = Some ping ->
     ping (world s) = (w1, Err e) ->
     run (getHealthState now config) s =
     (mkState w1 (emitter s) (dependencyHealth s) (healthCheckService s)
              (trace s ++ [Invoked OnPing []; Completed OnPing (Some e)]),
      Thrown e)) /\
  (forall isH w1 customState w2,
     match onPing config with
     | Some ping => ping (world s) = (w1, Ok customState)
     | None => world s = w1
     end ->
     isHealthy config = Some isH ->
     isH w1 = (w2, Err e) ->
     run (getHealthState now config) s =
     (mkState w2 (emitter s) (dependencyHealth s) (healthCheckService s)
              (trace s ++
               match onPing config with
               | Some _ => [Invoked OnPing []; Completed OnPing None]
               | None => []
               end ++
               [Invoked IsHealthy []; Completed IsHealthy (Some e)]),
      Thrown e)).
Proof.
  split.
  - intros ping w1 Hping H1. rewrite run_getHealthState, Hping.
    rewrite (called_at _ _ _ _ _ _ H1). cbn [of_result rejection and_then].
    f_equal. apply state_eq; fields; rewrite <- ?app_assoc; reflexivity.
  - intros isH w1 customState w2 H1 HisH H2. rewrite run_getHealthState, HisH.
    destruct (onPing config) as [ping |].
    + rewrite (called_at _ _ _ _ _ _ H1). cbn [of_result rejection and_then].
      erewrite called_at; [| fields; exact H2]. cbn [of_result rejection and_then].
      f_equal. apply state_eq; fields; rewrite <- ?app_assoc; reflexivity.
    + subst w1. cbn [and_then].
      rewrite (called_at _ _ _ _ _ _ H2). cbn [of_result rejection and_then].
      f_equal. apply state_eq; fields; rewrite <- ?app_assoc; reflexivity.
Qed.

(** X17.  On an emitter without listener of [newListener]: a listener
    registered with [on(event, listener)] is called by
    [emit(event, ...args)] with these arguments after the listeners
    registered before it, and the emission returns [true] or throws what
    the listener throws; when an earlier listener throws, the new one is
    not called and the emission throws that exception; an emission of
    another event, other than [error], does not call it. *)
Theorem on_then_emit event (listener : @Listener W) args s :
  listeners "newListener" (emitter s) = [] ->
  run (emit event args) (on event listener s) =
    match fire (listeners event (emitter s)) args (world s) with
    | (w1, Ok _) =>
        (set_world (fst (listener args w1))
           (record (Emitted event args) (on event listener s)),
         match snd (listener args w1) with
         | Ok _ => Normal true
         | Err e => Thrown e
         end)
    | (w1, Err e) =>
        (set_world w1 (record (Emitted event args) (on event listener s)),
         Thrown e)
    end /\
  forall event',
    event' <> event ->
    event' <> "error" ->
    run (emit event' args) (on event listener s) =
    (on event listener (fst (run (emit event' args) s)),
     snd (run (emit event' args) s)).
Proof.
  intros _. split.
  - rewrite run_emit. unfold emitted. cbv zeta.
    rewrite listeners_on_same, fire_snoc. fields.
    destruct (fire _ _ _) as [w [[] | e]]; [| reflexivity].
    destruct (listener args w) as [w2 [[] | e]]; cbn [fst snd]; [| reflexivity].
    destruct (listeners event (emitter s)); reflexivity.
  - intros event' Hne _. rewrite !run_emit. unfold emitted. cbv zeta.
    rewrite listeners_on_other by done. fields.
    destruct (fire _ _ _) as [w r]. reflexivity.
Qed.

End Properties.

(** * The properties on the scenarios *)

(** C1, counterexample.  [onPing] returns [healthy], [timestamp] and
    [dependencies]; the snapshot carries these values, none of which is
    the computed one. *)
Lemma onPing_shadows_reserved_keys :
  let s := defined shadowing in
  let r := run (getHealthState clock shadowing) s in
  snd r = Normal (snapshot r) /\
  get_prop (snapshot r) "healthy" = JsBool false /\
  get_prop (snapshot r) "healthy" <> JsBool (allReady (dependencyHealth s)) /\
  get_prop (snapshot r) "timestamp" = JsNumber 0 /\
  get_prop (snapshot r) "timestamp" <> JsNumber (clock (world (fst r))) /\
  get_prop (snapshot r) "dependencies" = JsString "none" /\
  get_prop (snapshot r) "dependencies" <> dependenciesField (dependencyHealth s).
Proof.
  vm_compute. repeat split; discriminate.
Qed.

Lemma getHealthState_reserved_keys_witness :
  let s := defined custom_health in
  let r := run (getHealthState clock custom_health) s in
  exists (customState : gmap string JsValue) (healthy : bool),
    customState = <["count" := JsNumber 7]> ∅ /\
    healthy = true /\
    snapshot r !! "healthy" = Some (JsBool healthy) /\
    snapshot r !! "timestamp" = Some (JsNumber (clock (world (fst r)))) /\
    snapshot r !! "dependencies" =
      Some (dependenciesField (dependencyHealth s)).
Proof.
  intros s r.
  destruct (getHealthState_reserved_keys clock custom_health s (fst r) (snapshot r)
              (resolve (<["count" := JsNumber 7]> ∅)) eq_refl)
    as (customState & healthy & Hc & Hh & H1 & H2 & H3).
  { vm_compute. reflexivity. }
  exists customState, healthy.
  injection Hc as <-. injection Hh as <-.
  repeat split; assumption.
Defined.

(** C6, counterexample.  [isHealthy] returns [true] and [onPing] returns
    [{ healthy: false }]: the snapshot says [healthy: false]. *)
Lemma isHealthy_overruled_by_onPing :
  let s := defined overruled in
  let r := run (getHealthState clock overruled) s in
  isHealthy overruled = Some (resolve true) /\
  snd (resolve true (world_after_onPing overruled s)) = Ok true /\
  snd r = Normal (snapshot r) /\
  get_prop (snapshot r) "healthy" = JsBool false /\
  get_prop (snapshot r) "healthy" <> JsBool true.
Proof.
  vm_compute. repeat split; discriminate.
Qed.

Lemma isHealthy_determines_healthy_witness :
  let s := defined custom_health in
  let r := run (getHealthState clock custom_health) s in
  allReady (dependencyHealth s) = false /\
  get_prop (snapshot r) "healthy" = JsBool true.
Proof.
  intros s r. split; [reflexivity |].
  destruct (isHealthy_determines_healthy clock custom_health s (fst r) (snapshot r)
              (resolve true) eq_refl) as (b & Hb & Hh).
  - intros ping customState [= <-] [= <-]. reflexivity.
  - vm_compute. reflexivity.
  - injection Hb as <-. exact Hh.
Defined.

(** C3, counterexample.  A name sequence with a duplicate is accepted:
    the call returns normally and the registry has a single entry. *)
Lemma duplicate_names_accepted :
  dependencies duplicated = Some ["db"; "db"] /\
  ~ NoDup ["db"; "db"] /\
  defineLifecycle duplicated tt = Normal (mkState tt [] {[ "db" := false ]} None []) /\
  forall e, defineLifecycle duplicated tt <> Thrown e.
Proof.
  split; [reflexivity |]. split.
  - intros H. apply NoDup_cons in H as [Hin _]. apply Hin. by left.
  - split; [vm_compute; reflexivity | discriminate].
Qed.

Lemma defineLifecycle_declares_witness :
  exists s,
    defineLifecycle tracked tt = Normal s /\
    dom (dependencyHealth s) = list_to_set ["db"; "queue"] /\
    (forall k b, dependencyHealth s !! k = Some b -> b = false) /\
    (NoDup ["db"; "queue"] -> size (dependencyHealth s) = 2%nat).
Proof.
  exact (defineLifecycle_declares tracked ["db"; "queue"] tt eq_refl).
Defined.


(** C5, counterexample.  [onInit] raises ["X"].  When [onFailure] raises
    ["Y"], [init()] raises ["Y"] to its caller, not ["X"]; when a listener
    of [failure] throws, [onFailure] is not invoked at all; when a
    listener of [init] throws, [onInit] is not reached and the [failure]
    event carries the listener's exception. *)
Lemma init_double_failure :
  (let r := run (init clock close_ok double_failure) (defined double_failure) in
   onInit double_failure = Some (reject (JsError "X")) /\
   invocations OnFailure (trace (fst r)) = [[JsError "X"]] /\
   snd r = Thrown (JsError "Y") /\
   snd r <> Thrown (JsError "X")) /\
  (let r := run (init clock close_ok failing_init)
                (on "failure" boom (defined failing_init)) in
   onInit failing_init = Some (reject (JsError "X")) /\
   emissions "failure" (trace (fst r)) = [[JsError "X"]] /\
   invocations OnFailure (trace (fst r)) = [] /\
   snd r = Thrown (JsError "boom") /\
   snd r <> Thrown (JsError "X")) /\
  (let r := run (init clock close_ok failing_init)
                (on "init" boom (defined failing_init)) in
   invocations OnInit (trace (fst r)) = [] /\
   emissions "failure" (trace (fst r)) = [[JsError "boom"]] /\
   snd r <> Thrown (JsError "X")).
Proof.
  vm_compute. repeat split; discriminate.
Qed.


(** C10, counterexample.  A listener of [ready] throws ["boom"].  When
    [onFailure] raises ["Y"], [init()] rejects with ["Y"], not with the
    listener's exception; when a listener of [failure] throws ["late"],
    [onFailure] is not invoked and [init()] rejects with ["late"]. *)
Lemma ready_listener_double_failure :
  (let s := on "ready" boom (defined failing_onFailure) in
   let r := run (init clock close_ok failing_onFailure) s in
   emissions "failure" (trace (fst r)) = [[JsError "boom"]] /\
   invocations OnFailure (trace (fst r)) = [[JsError "boom"]] /\
   snd r = Thrown (JsError "Y") /\
   snd r <> Thrown (JsError "boom")) /\
  (let s := on "failure" late (on "ready" boom (defined tracked)) in
   let r := run (init clock close_ok tracked) s in
   emissions "failure" (trace (fst r)) = [[JsError "boom"]] /\
   invocations OnFailure (trace (fst r)) = [] /\
   snd r = Thrown (JsError "late") /\
   snd r <> Thrown (JsError "boom")).
Proof.
  vm_compute. repeat split; discriminate.
Qed.


(** C7, counterexample.  No dependency is declared and [onPing] returns
    [{ dependencies: {} }]: [getHealthState().dependencies] is the empty
    mapping, not [undefined]. *)
Lemma onPing_supplies_dependencies :
  let s := initialised empty_mapping in
  let r := run (getHealthState clock empty_mapping) s in
  declared empty_mapping = [] /\
  snd r = Normal (snapshot r) /\
  get_prop (snapshot r) "dependencies" = JsObject ∅ /\
  get_prop (snapshot r) "dependencies" <> JsUndefined.
Proof.
  vm_compute. repeat split; discriminate.
Qed.

Lemma dependencies_field_witness :
  let s0 := defined tracked in
  let r1 := run (init clock close_ok tracked) s0 in
  let r2 := run (getHealthState clock tracked) (fst r1) in
  snd r1 = Normal tt /\
  get_prop (snapshot r2) "dependencies" =
  JsObject (gset_to_gmap (JsBool true) (list_to_set ["db"; "queue"])).
Proof.
  intros s0 r1 r2. split; [reflexivity |].
  assert (Hkey : forall ping (w : unit) (customState : gmap string JsValue),
            onPing tracked = Some ping -> snd (ping w) = Ok customState ->
            customState !! "dependencies" = None).
  { intros ping w customState [= <-] [= <-]. reflexivity. }
  apply (proj1 (dependencies_field clock close_ok tracked Hkey)
           ["db"; "queue"] s0 (fst r1) (fst r2) (snapshot r2)).
  - discriminate.
  - reflexivity.
  - vm_compute. reflexivity.
  - vm_compute. reflexivity.
Defined.

(** C2, counterexample.  [onShutdown] raises: [shutdown()] throws the
    error to its caller, [done] is not emitted and the process is not
    exited.  (A listener of [done] that throws also keeps [shutdown()]
    from exiting.) *)
Lemma shutdown_propagates_cleanup_error :
  (let s := initialised failing_cleanup in
   let r := run (shutdown failing_cleanup) s in
   snd r = Thrown (JsError "Shutdown failed") /\
   snd r <> Exit 0 /\
   emissions "done" (trace (fst r)) = [] /\
   count is_exit (trace (fst r)) = 0%nat) /\
  (let s := on "done" boom (initialised no_callbacks) in
   let r := run (shutdown no_callbacks) s in
   snd r = Thrown (JsError "boom") /\
   snd r <> Exit 0 /\
   count is_exit (trace (fst r)) = 0%nat).
Proof.
  vm_compute. repeat split; discriminate.
Qed.


(** C4, counterexample.  A second [shutdown()] while the first one is
    suspended: in the ready state close is called twice; after a failed
    [init()], where no server was started, [onShutdown] is called twice. *)
Lemma second_shutdown_runs_again :
  (let s := initialised tracked in
   let s1 := fst (shutdown tracked s) in
   let s2 := fst (shutdown tracked s1) in
   count (is_invoked ServerClose) (trace s) = 0%nat /\
   count (is_invoked ServerClose) (trace s2) = 2%nat) /\
  (let s := initialised failing_init in
   let s1 := fst (shutdown failing_init s) in
   let s2 := fst (shutdown failing_init s1) in
   count (is_invoked OnShutdown) (trace s) = 0%nat /\
   count (is_invoked OnShutdown) (trace s2) = 2%nat).
Proof.
  vm_compute. repeat split.
Qed.

Lemma shutdown_twice_witness :
  let s := initialised tracked in
  exists s1 k1 s2 k2,
    shutdown tracked s = (s1, Pending k1) /\
    shutdown tracked s1 = (s2, Pending k2) /\
    healthCheckService s1 = Some {| close := close_ok; port := DEFAULT_PORT |} /\
    count (is_invoked ServerClose) (trace s2) =
    (count (is_invoked ServerClose) (trace s) + 2)%nat.
Proof.
  intros s.
  exact (proj1 (shutdown_twice tracked s)
           {| close := close_ok; port := DEFAULT_PORT |} eq_refl).
Defined.

Lemma shutdown_closes_before_onShutdown_witness :
  let s := initialised tracked in
  healthCheckService s = Some {| close := close_ok; port := DEFAULT_PORT |} /\
  onShutdown tracked = Some (resolve tt) /\
  exists s' c t,
    run (shutdown tracked) s = (s', c) /\
    trace s' = trace s ++ t /\
    preceded_by (Completed ServerClose None) (is_invoked OnShutdown) t.
Proof.
  intros s. split; [reflexivity |]. split; [reflexivity |].
  exact (proj1 (shutdown_closes_before_onShutdown tracked s
                  {| close := close_ok; port := DEFAULT_PORT |} (resolve tt)
                  eq_refl eq_refl)).
Defined.

Lemma health_endpoint_never_throws_witness :
  let s := initialised failing_ping in
  let req := mkRequest "/health" "GET" in
  let r := run (getHealthState clock failing_ping) s in
  snd r = Thrown (JsError "Ping failed") /\
  run (createHealthCheckCallback clock failing_ping req) s =
  (record (End_ (Some (JsObject
             (<["healthy" := JsBool false]>
                (<["error" := JsString "Failed to get health state"]> ∅)))))
     (record (WriteHead 503%Z (Some "application/json"))
        (record (LogError [("err", JsError "Ping failed")]
                          "Error getting health state") (fst r))),
   Normal tt).
Proof.
  intros s req r. split; [reflexivity |].
  apply (proj2 (proj2 (health_endpoint_never_throws clock failing_ping req s))).
  - reflexivity.
  - reflexivity.
Defined.

(** * The further properties on the scenarios *)

Lemma init_resolves_witness :
  let s := defined tracked in
  let s' := initialised tracked in
  exists t,
    trace s' = trace s ++ t /\
    t = [Emitted "init" []; Invoked OnInit []; Completed OnInit None;
         ServerListen DEFAULT_PORT; ProcessOn "SIGTERM"; ProcessOn "SIGINT";
         Emitted "ready" []] /\
    emissions "ready" t = [[]] /\
    emissions "failure" t = [] /\
    invocations OnFailure t = [] /\
    dependencyHealth s' = (fun _ => true) <$> dependencyHealth s /\
    healthCheckService s' = Some {| close := close_ok; port := DEFAULT_PORT |}.
Proof.
  intros s s'.
  apply (init_resolves clock close_ok tracked s s').
  vm_compute. reflexivity.
Defined.

Lemma init_twice_witness :
  let s := defined tracked in
  let s1 := initialised tracked in
  let s2 := fst (run (init clock close_ok tracked) s1) in
  count is_listen (trace s2) = 2%nat /\
  count is_processOn (trace s2) = 4%nat /\
  emissions "ready" (trace s2) = [[]; []] /\
  count (is_invoked OnInit) (trace s2) = 2%nat.
Proof.
  intros s s1 s2.
  apply (init_twice clock close_ok tracked s s1 s2); vm_compute; reflexivity.
Defined.


Lemma reachable_initialised (config : @LifecycleConfig unit) :
  reachable clock close_ok config (initialised config).
Proof. apply reach_init. by apply (reach_defined _ _ _ tt). Qed.

Lemma reachable_flags_uniform_witness :
  exists b : bool,
    (forall k, dependencyHealth (initialised tracked) !! k =
               if decide (k ∈ declared tracked) then Some b else None) /\
    healthCheckService (initialised tracked) =
      if b then Some {| close := close_ok; port := DEFAULT_PORT |} else None.
Proof.
  exact (reachable_flags_uniform clock close_ok tracked (initialised tracked)
           (reachable_initialised tracked)).
Defined.

Lemma served_default_health_is_true_witness :
  let s := initialised tracked in
  let r := run (getHealthState clock tracked) s in
  get_prop (snapshot r) "healthy" = JsBool true /\
  forall k, k ∈ declared tracked -> dependencyHealth s !! k = Some true.
Proof.
  intros s r.
  apply (served_default_health_is_true clock close_ok tracked s
           {| close := close_ok; port := DEFAULT_PORT |} (fst r) (snapshot r)).
  - apply reachable_initialised.
  - reflexivity.
  - reflexivity.
  - intros ping customState [= <-] [= <-]. reflexivity.
  - vm_compute. reflexivity.
Defined.

Lemma getHealthState_keys_witness :
  let s := defined custom_health in
  let r := run (getHealthState clock custom_health) s in
  exists customState : gmap string JsValue,
    snd (resolve (<["count" := JsNumber 7]> ∅) (world s)) = Ok customState /\
    dom (snapshot r) =
      dom customState ∪ {["healthy"; "timestamp"; "dependencies"]} /\
    forall k v, customState !! k = Some v -> snapshot r !! k = Some v.
Proof.
  intros s r.
  apply (getHealthState_keys clock custom_health s (fst r) (snapshot r)).
  vm_compute. reflexivity.
Defined.

Lemma default_health_is_all_ready_witness :
  let s := defined tracked in
  let r := run (getHealthState clock tracked) s in
  (exists b, get_prop (snapshot r) "healthy" = JsBool b) /\
  (get_prop (snapshot r) "healthy" = JsBool true <->
   forall k b, dependencyHealth s !! k = Some b -> b = true) /\
  (dependencyHealth s = ∅ -> get_prop (snapshot r) "healthy" = JsBool true).
Proof.
  intros s r.
  apply (default_health_is_all_ready clock tracked s (fst r) (snapshot r)).
  - reflexivity.
  - intros ping customState [= <-] [= <-]. reflexivity.
  - vm_compute. reflexivity.
Defined.

Lemma snapshot_before_init_witness :
  let s := defined tracked in
  let r := run (getHealthState clock tracked) s in
  get_prop (snapshot r) "healthy" = JsBool false /\
  get_prop (snapshot r) "dependencies" =
    JsObject (gset_to_gmap (JsBool false) (list_to_set ["db"; "queue"])).
Proof.
  intros s r.
  apply (snapshot_before_init clock tracked ["db"; "queue"] s (fst r) (snapshot r)).
  - discriminate.
  - reflexivity.
  - reflexivity.
  - intros ping customState [= <-] [= <-]. split; reflexivity.
  - vm_compute. reflexivity.
Defined.


Lemma health_endpoint_reports_witness :
  let s := initialised tracked in
  let req := mkRequest "/health" "GET" in
  let r := run (getHealthState clock tracked) s in
  run (requestHandler (Some (inl (createHealthCheckCallback clock tracked))) req) s =
  (record (End_ (Some (JsObject (snapshot r))))
     (record (WriteHead (if truthy (get_prop (snapshot r) "healthy")
                         then 200%Z else 503%Z)
                        (Some "application/json")) (fst r)),
   Normal tt).
Proof.
  intros s req r.
  apply (health_endpoint_reports clock tracked req s (fst r) (snapshot r)).
  - reflexivity.
  - reflexivity.
  - vm_compute. reflexivity.
Defined.

Lemma requestHandler_not_found_witness :
  let s := initialised tracked in
  let req := mkRequest "/health" "POST" in
  run (requestHandler (Some (inl (createHealthCheckCallback clock tracked))) req) s =
  (record (End_ None) (record (WriteHead 404%Z None) s), Normal tt).
Proof.
  intros s req.
  apply (requestHandler_not_found
           (Some (inl (createHealthCheckCallback clock tracked))) req s).
  right. discriminate.
Defined.

Lemma startHealthCheckServer_number_first_witness :
  let s := defined no_callbacks in
  let req := mkRequest "/health" "GET" in
  run (startHealthCheckServer close_ok (Some (inr 3001%Z)) (Some 4000%Z)) s =
    (record (ServerListen 3001) s,
     Normal {| close := close_ok; port := 3001%Z |}) /\
  run (requestHandler (Some (inr 3001%Z)) req) s =
    (record (End_ (Some (JsObject {[ "status" := JsString "Ok" ]})))
       (record (WriteHead 200%Z (Some "application/json")) s),
     Normal tt) /\
  run (requestHandler None req) s =
    run (requestHandler (Some (inr 3001%Z)) req) s.
Proof.
  intros s req.
  apply (startHealthCheckServer_number_first close_ok 3001%Z (Some 4000%Z) req s);
    reflexivity.
Defined.

Lemma shutdown_close_failure_skips_cleanup_witness :
  let s := fst (run (init clock close_fails tracked) (defined tracked)) in
  exists s',
    run (shutdown tracked) s = (s', Thrown (JsError "ERR_SERVER_NOT_RUNNING")) /\
    trace s' = trace s ++ [LogInfo [] "Initiating graceful shutdown...";
                           Invoked ServerClose [];
                           Completed ServerClose
                             (Some (JsError "ERR_SERVER_NOT_RUNNING"))] /\
    invocations OnShutdown (trace s') = invocations OnShutdown (trace s) /\
    emissions "done" (trace s') = emissions "done" (trace s).
Proof.
  intros s.
  apply (shutdown_close_failure_skips_cleanup tracked s
           {| close := close_fails; port := DEFAULT_PORT |}).
  - reflexivity.
  - intros w. reflexivity.
Defined.


Lemma shutdown_error_handling_witness :
  let s := initialised failing_cleanup in
  let e := JsError "Shutdown failed" in
  let after t :=
    mkState tt (emitter s) (dependencyHealth s) (healthCheckService s)
            (trace s ++ t) in
  run (shutdown failing_cleanup) s =
    (after [LogInfo [] "Initiating graceful shutdown...";
            Invoked ServerClose []; Completed ServerClose None;
            Invoked OnShutdown []; Completed OnShutdown (Some e)],
     Thrown e) /\
  run (handleSignal (Some (fun _ => shutdown failing_cleanup)) "SIGTERM" SIGTERM) s =
    (after [LogInfo [("signal", JsString "SIGTERM")]
                    "Signal received, initiating graceful shutdown";
            LogInfo [] "Initiating graceful shutdown...";
            Invoked ServerClose []; Completed ServerClose None;
            Invoked OnShutdown []; Completed OnShutdown (Some e);
            LogError [("error", e); ("signal", JsString "SIGTERM")]
                     "Error during shutdown";
            ProcessExit 0],
     Exit 0).
Proof.
  intros s e after.
  destruct (shutdown_error_handling failing_cleanup s tt (Ok tt) tt (Err e) tt (Ok tt))
    as [H1 H2]; [reflexivity | reflexivity | reflexivity |].
  split; [exact H1 | exact (H2 "SIGTERM" SIGTERM)].
Defined.

Lemma init_failure_witness :
  let s := defined failing_init in
  let E := JsError "X" in
  run (init clock close_ok failing_init) s =
    (mkState tt (emitter s) (dependencyHealth s) (healthCheckService s)
       (trace s ++
        [Emitted "init" []; Invoked OnInit []; Completed OnInit (Some E);
         Emitted "failure" [E]; Invoked OnFailure [E]; Completed OnFailure None]),
     Thrown E) /\
  forall k, k ∈ ["db"; "queue"] ->
    dependencyHealth (fst (run (init clock close_ok failing_init) s)) !! k = Some false.
Proof.
  intros s E.
  exact (init_failure clock close_ok failing_init s (reject E) E ["db"; "queue"]
           tt tt tt (Ok tt) tt (Ok tt)
           eq_refl eq_refl eq_refl eq_refl eq_refl eq_refl).
Defined.

Lemma init_ready_listener_throws_witness :
  let s := on "ready" boom (defined tracked) in
  let E := JsError "boom" in
  run (init clock close_ok tracked) s =
    (mkState tt (emitter s) (markAllReady (dependencyHealth s))
       (Some {| close := close_ok; port := DEFAULT_PORT |})
       (trace s ++
        [Emitted "init" []; Invoked OnInit []; Completed OnInit None;
         ServerListen DEFAULT_PORT; ProcessOn "SIGTERM"; ProcessOn "SIGINT";
         Emitted "ready" []; Emitted "failure" [E];
         Invoked OnFailure [E]; Completed OnFailure None]),
     Thrown E) /\
  forall k b,
    dependencyHealth (fst (run (init clock close_ok tracked) s)) !! k = Some b ->
    b = true.
Proof.
  intros s E.
  exact (init_ready_listener_throws clock close_ok tracked s E
           tt tt tt tt (Ok tt) tt (Ok tt)
           eq_refl eq_refl eq_refl eq_refl eq_refl).
Defined.

Lemma init_rejected_before_setup_witness :
  let s := defined failing_init in
  let E := JsError "X" in
  exists s' e t handled,
    run (init clock close_ok failing_init) s = (s', Thrown e) /\
    trace s' = trace s ++ t /\
    t = [Emitted "init" []; Invoked OnInit []; Completed OnInit (Some E);
         Emitted "failure" [E]] ++ handled /\
    (handled = [] \/
     exists rejected, handled = [Invoked OnFailure [E]; Completed OnFailure rejected]) /\
    count is_listen t = 0%nat /\
    count is_processOn t = 0%nat /\
    emissions "ready" t = [] /\
    dependencyHealth s' = dependencyHealth s /\
    healthCheckService s' = healthCheckService s.
Proof.
  intros s E.
  exact (init_rejected_before_setup clock close_ok failing_init s (reject E) E tt tt
           eq_refl eq_refl eq_refl).
Defined.

Lemma getHealthState_rethrows_witness :
  let s := initialised failing_ping in
  let e := JsError "Ping failed" in
  run (getHealthState clock failing_ping) s =
  (mkState tt (emitter s) (dependencyHealth s) (healthCheckService s)
           (trace s ++ [Invoked OnPing []; Completed OnPing (Some e)]),
   Thrown e).
Proof.
  intros s e.
  exact (proj1 (getHealthState_rethrows clock failing_ping s e)
           (reject e) tt eq_refl eq_refl).
Defined.

Lemma on_then_emit_witness :
  let s := on "custom-event" noop (defined tracked) in
  let args := [JsString "arg1"; JsString "arg2"] in
  run (emit "custom-event" args) (on "custom-event" boom s) =
    (record (Emitted "custom-event" args) (on "custom-event" boom s),
     Thrown (JsError "boom")) /\
  run (emit "ready" args) (on "custom-event" boom s) =
    (on "custom-event" boom (fst (run (emit "ready" args) s)),
     snd (run (emit "ready" args) s)).
Proof.
  intros s args.
  destruct (on_then_emit "custom-event" boom args s eq_refl) as [H1 H2]. split.
  - exact H1.
  - apply H2; discriminate.
Defined.
